(** * SpaceX launch records dashboard: the two callbacks of spacex-dash-app.py

    A shallow embedding of the data handling of [spacex-dash-app.py] and the
    properties its specification states about it.

    Modelling choices.
    - The data frame [spacex_df] is the list of its rows, in file order.  A
      row keeps the four columns the program reads.
    - ['Payload Mass (kg)'] is a float column.  Finite floats are rationals
      and their comparisons are exact, so a payload is a [Q]; a missing
      cell (NaN) is outside the data model (the schema says "numeric").
      The value [min()] and [max()] give on an empty column, NaN, is [None].
    - ['class'] is an integer column, a [Z]; the program compares it with
      [1] and relabels [1] and [0].
    - A figure is the record of what the program hands to plotly: the data
      frame and the keyword arguments of [px.pie] or [px.scatter], and the
      axis update made afterwards.  What plotly draws from them is not
      modelled.
    - The callbacks read the module's globals; they are written in a state
      monad over those globals, so that what they leave behind is a
      statement about the final state. *)

From Stdlib Require Import String List ZArith QArith Bool Arith Lia
  Permutation Sorted.
From Stdlib Require OrderedTypeEx Qround DecimalString.
From ExtLib Require Import Structures.Monad Structures.MonadState
  Data.Monads.StateMonad.
Import ListNotations.
Import MonadNotation.
Local Open Scope monad_scope.
Local Close Scope Q_scope.
Local Open Scope string_scope.

(** ** Data model *)

(** One row of [spacex_launch_dash.csv]. *)
Record LaunchRecord := mkLaunch {
  Launch_Site : string;        (* 'Launch Site' *)
  Payload_Mass : Q;            (* 'Payload Mass (kg)' *)
  class : Z;                   (* 'class' *)
  Booster_Version : string     (* 'Booster Version' *)
}.

Definition DataFrame := list LaunchRecord.

Module Pandas.

(** [df[mask]]: the rows whose mask entry is [True], in frame order. *)
Fixpoint select {A : Type} (df : list A) (mask : list bool) : list A :=
  match df, mask with
  | r :: df', b :: mask' =>
      if b then r :: select df' mask' else select df' mask'
  | _, _ => []
  end.

(** [m1 & m2], element by element. *)
Fixpoint mask_and (m1 m2 : list bool) : list bool :=
  match m1, m2 with
  | a :: m1', b :: m2' => (a && b) :: mask_and m1' m2'
  | _, _ => []
  end.

(** [col >= low] and [col <= high] on a numeric column. *)
Definition ge_mask (col : list Q) (low : Q) : list bool :=
  map (fun x => Qle_bool low x) col.
Definition le_mask (col : list Q) (high : Q) : list bool :=
  map (fun x => Qle_bool x high) col.

(** [col == v] on a string and on an integer column. *)
Definition eq_mask_str (col : list string) (v : string) : list bool :=
  map (fun x => String.eqb x v) col.
Definition eq_mask_int (col : list Z) (v : Z) : list bool :=
  map (fun x => Z.eqb x v) col.

(** [col.min()] and [col.max()]: a reduction from the left; NaN, here
    [None], on an empty column. *)
Definition series_min (col : list Q) : option Q :=
  match col with
  | [] => None
  | x :: t => Some (fold_left (fun m y => if Qle_bool m y then m else y) t x)
  end.
Definition series_max (col : list Q) : option Q :=
  match col with
  | [] => None
  | x :: t => Some (fold_left (fun m y => if Qle_bool y m then m else y) t x)
  end.

(** [col.unique().tolist()]: the distinct values in order of first
    appearance. *)
Fixpoint unique_from (seen col : list string) : list string :=
  match col with
  | [] => []
  | x :: t =>
      if existsb (String.eqb x) seen then unique_from seen t
      else x :: unique_from (x :: seen) t
  end.
Definition unique (col : list string) : list string := unique_from [] col.

(** [groupby(key).size()]: one entry per distinct key with the number of
    its rows; the keys come out sorted (groupby sorts by default). *)
Fixpoint gb_bump (k : string) (acc : list (string * nat)) : list (string * nat) :=
  match acc with
  | [] => [(k, 1%nat)]
  | (k', c) :: t =>
      match String.compare k k' with
      | Eq => (k', S c) :: t
      | Lt => (k, 1%nat) :: (k', c) :: t
      | Gt => (k', c) :: gb_bump k t
      end
  end.
Definition groupby_size (keys : list string) : list (string * nat) :=
  fold_left (fun acc k => gb_bump k acc) keys [].

(** [col.value_counts()]: one entry per distinct value with the number of
    its occurrences, the larger count first.  Values are tallied in order
    of first appearance and the sort is stable. *)
Fixpoint vc_bump (k : Z) (acc : list (Z * nat)) : list (Z * nat) :=
  match acc with
  | [] => [(k, 1%nat)]
  | (k', c) :: t =>
      if Z.eqb k k' then (k', S c) :: t else (k', c) :: vc_bump k t
  end.
Definition vc_tally (col : list Z) : list (Z * nat) :=
  fold_left (fun acc k => vc_bump k acc) col [].
Fixpoint vc_insert (e : Z * nat) (l : list (Z * nat)) : list (Z * nat) :=
  match l with
  | [] => [e]
  | h :: t => if Nat.leb (snd h) (snd e) then e :: h :: t
              else h :: vc_insert e t
  end.
Definition vc_sort (l : list (Z * nat)) : list (Z * nat) :=
  fold_right vc_insert [] l.
Definition value_counts (col : list Z) : list (Z * nat) :=
  vc_sort (vc_tally col).

End Pandas.

(** Python's [int(x)] on a float: truncation toward zero. *)
Definition py_int (x : Q) : Z := Z.quot (Qnum x) (Zpos (Qden x)).

(** ** Module globals *)

Definition payload_col : string := "Payload Mass (kg)".

Record Globals := mkGlobals {
  spacex_df : DataFrame;
  min_payload : option Q;
  max_payload : option Q;
  launch_sites : list string
}.

(** The module's top level: the frame read from the CSV file and the values
    computed from it once. *)
Definition startup (csv : DataFrame) : Globals :=
  {| spacex_df := csv;
     min_payload := Pandas.series_min (map Payload_Mass csv);
     max_payload := Pandas.series_max (map Payload_Mass csv);
     launch_sites := Pandas.unique (map Launch_Site csv) |}.

Record DropdownOption := mkOption { opt_label : string; opt_value : string }.

Definition dropdown_options (g : Globals) : list DropdownOption :=
  mkOption "All Sites" "ALL"
  :: map (fun site => mkOption site site) (launch_sites g).

(** [dcc.RangeSlider(id='payload-slider', ...)], without its marks. *)
Record RangeSlider := mkSlider {
  slider_id : string;
  slider_min : Z;
  slider_max : Z;
  slider_step : Z;
  slider_value : Z * Z
}.

(** The layout's slider.  [int(nan)] raises [ValueError]: no slider, and no
    layout, when the column is empty. *)
Definition payload_slider (g : Globals) : option RangeSlider :=
  match min_payload g, max_payload g with
  | Some mn, Some mx =>
      Some {| slider_id := "payload-slider";
              slider_min := py_int mn;
              slider_max := py_int mx;
              slider_step := 100;
              slider_value := (py_int mn, py_int mx) |}
  | _, _ => None
  end.

(** ** Figures *)

(** A pie slice name: a string, or an integer that [replace] left alone. *)
Inductive Label :=
| LStr (s : string)
| LInt (z : Z).

Record PieFigure := mkPie {
  pie_data : list (Label * nat);   (* names and values, row by row *)
  pie_title : string
}.

Record YAxis := mkYAxis {
  tickvals : option (list Z);
  ticktext : option (list string)
}.

Record ScatterFigure := mkScatter {
  sc_data : DataFrame;
  sc_x : string;
  sc_y : string;
  sc_color : string;
  sc_hover_data : list string;
  sc_title : string;
  sc_labels : list (string * string);
  sc_yaxis : YAxis
}.

Module Plotly.

Definition pie (data : list (Label * nat)) (title : string) : PieFigure :=
  {| pie_data := data; pie_title := title |}.

Definition scatter (data_frame : DataFrame) (x y color : string)
    (hover_data : list string) (title : string)
    (labels : list (string * string)) : ScatterFigure :=
  {| sc_data := data_frame; sc_x := x; sc_y := y; sc_color := color;
     sc_hover_data := hover_data; sc_title := title; sc_labels := labels;
     sc_yaxis := {| tickvals := None; ticktext := None |} |}.

(** [fig.update_yaxes(tickvals=..., ticktext=...)] *)
Definition update_yaxes (fig : ScatterFigure) (tv : list Z)
    (txt : list string) : ScatterFigure :=
  {| sc_data := sc_data fig; sc_x := sc_x fig; sc_y := sc_y fig;
     sc_color := sc_color fig; sc_hover_data := sc_hover_data fig;
     sc_title := sc_title fig; sc_labels := sc_labels fig;
     sc_yaxis := {| tickvals := Some tv; ticktext := Some txt |} |}.

(** The text plotly writes at tick value [v]: the entry of [ticktext] at
    the position [v] has in [tickvals]. *)
Fixpoint tick_lookup (v : Z) (tv : list Z) (txt : list string) : option string :=
  match tv, txt with
  | x :: tv', s :: txt' => if Z.eqb v x then Some s else tick_lookup v tv' txt'
  | _, _ => None
  end.
Definition tick_label (fig : ScatterFigure) (v : Z) : option string :=
  match tickvals (sc_yaxis fig), ticktext (sc_yaxis fig) with
  | Some tv, Some txt => tick_lookup v tv txt
  | _, _ => None
  end.

End Plotly.

(** ** The callbacks *)

Definition App := state Globals.

(** [outcome_counts['class'].replace({1: 'Success', 0: 'Failure'})] *)
Definition replace_class (c : Z) : Label :=
  if Z.eqb c 1 then LStr "Success"
  else if Z.eqb c 0 then LStr "Failure"
  else LInt c.

Definition update_pie_chart (selected_site : string) : App PieFigure :=
  df <- gets spacex_df ;;
  if String.eqb selected_site "ALL" then
    let successes := Pandas.select df (Pandas.eq_mask_int (map class df) 1) in
    let success_counts := Pandas.groupby_size (map Launch_Site successes) in
    ret (Plotly.pie (map (fun e => (LStr (fst e), snd e)) success_counts)
                    "Total Successful Launches by Site")
  else
    let filtered_df :=
      Pandas.select df (Pandas.eq_mask_str (map Launch_Site df) selected_site) in
    let outcome_counts := Pandas.value_counts (map class filtered_df) in
    let outcome_counts :=
      map (fun e => (replace_class (fst e), snd e)) outcome_counts in
    ret (Plotly.pie outcome_counts ("Success vs Failure for " ++ selected_site)).

Definition update_scatter (selected_site : string) (payload_range : Q * Q)
  : App ScatterFigure :=
  let (low, high) := payload_range in
  df <- gets spacex_df ;;
  let mask := Pandas.mask_and (Pandas.ge_mask (map Payload_Mass df) low)
                              (Pandas.le_mask (map Payload_Mass df) high) in
  let filtered_df := Pandas.select df mask in
  fig <- (if String.eqb selected_site "ALL" then
            ret (Plotly.scatter filtered_df payload_col "class" "Booster Version"
                   ["Launch Site"; "Payload Mass (kg)"]
                   "Correlation between Payload and Success for All Launch Sites"
                   [("class", "Landing Success (1=Success,0=Fail)")])
          else
            let site_df :=
              Pandas.select filtered_df
                (Pandas.eq_mask_str (map Launch_Site filtered_df) selected_site) in
            ret (Plotly.scatter site_df payload_col "class" "Booster Version"
                   ["Launch Site"; "Payload Mass (kg)"]
                   ("Correlation between Payload and Success for site "
                      ++ selected_site)
                   [("class", "Landing Success (1=Success,0=Fail)")])) ;;
  ret (Plotly.update_yaxes fig [0%Z; 1%Z] ["Failure"; "Success"]).

(** What a callback returns and the globals it leaves, from globals [g]. *)
Definition figure_of {A : Type} (c : App A) (g : Globals) : A := evalState c g.
Definition globals_after {A : Type} (c : App A) (g : Globals) : Globals :=
  execState c g.

(** ** The example of the specification *)

Definition example_df : DataFrame :=
  [ mkLaunch "A" 500 1 "v1";
    mkLaunch "A" 800 0 "v1";
    mkLaunch "B" 600 1 "v2" ].

(** The rows the scatter callback keeps, as one test on a row. *)
Definition in_view (selected_site : string) (low high : Q) (r : LaunchRecord) : bool :=
  (Qle_bool low (Payload_Mass r) && Qle_bool (Payload_Mass r) high)
  && (String.eqb selected_site "ALL" || String.eqb (Launch_Site r) selected_site).


(** ** Vocabulary of the specification *)

(** [lo <= payloadMassKg <= hi] *)
Definition in_range (lo hi : Q) (r : LaunchRecord) : Prop :=
  (lo <= Payload_Mass r)%Q /\ (Payload_Mass r <= hi)%Q.

(** The site filter lets the row through. *)
Definition site_ok (s : string) (r : LaunchRecord) : Prop :=
  s = "ALL" \/ Launch_Site r = s.

Definition matches (s : string) (lo hi : Q) (r : LaunchRecord) : Prop :=
  in_range lo hi r /\ site_ok s r.

(** [keeps_exactly P D out]: [out] is [D] read from the top, each row that
    satisfies [P] taken once at its place and each other row left out. *)
Inductive keeps_exactly (P : LaunchRecord -> Prop) : DataFrame -> DataFrame -> Prop :=
| keeps_done : keeps_exactly P [] []
| keeps_take r D out :
    P r -> keeps_exactly P D out -> keeps_exactly P (r :: D) (r :: out)
| keeps_skip r D out :
    ~ P r -> keeps_exactly P D out -> keeps_exactly P (r :: D) out.

(** The order of [str] in Python, code point by code point, which on
    UTF-8 text is the order of the bytes. *)
Definition str_lt (a b : string) : Prop := String.compare a b = Lt.

(** The count an aggregate holds for a key, [0] when the key is absent. *)
Fixpoint gb_get (k : string) (acc : list (string * nat)) : nat :=
  match acc with
  | [] => 0
  | (k', c) :: t => if String.eqb k k' then c else gb_get k t
  end.

Fixpoint vc_get (k : Z) (acc : list (Z * nat)) : nat :=
  match acc with
  | [] => 0
  | (k', c) :: t => if Z.eqb k k' then c else vc_get k t
  end.

(** Occurrences of a value in a column. *)
Definition occurrences {A : Type} (eqb : A -> A -> bool) (k : A) (col : list A) : nat :=
  length (filter (eqb k) col).

(** The number of rows of a frame that pass a test. *)
Definition count_rows (p : LaunchRecord -> bool) (D : DataFrame) : nat :=
  length (filter p D).

Definition is_success (r : LaunchRecord) : bool := Z.eqb (class r) 1.
Definition is_failure (r : LaunchRecord) : bool := Z.eqb (class r) 0.
Definition at_site (s : string) (r : LaunchRecord) : bool :=
  String.eqb (Launch_Site r) s.

(** Names and total of a pie figure. *)
Definition pie_names (fig : PieFigure) : list Label := map fst (pie_data fig).
Definition pie_total (fig : PieFigure) : nat := list_sum (map snd (pie_data fig)).

(** Every row's outcome class is 0 or 1, as the schema of the file says. *)
Definition binary_classes (D : DataFrame) : Prop :=
  Forall (fun r => class r = 0%Z \/ class r = 1%Z) D.

(** The minimum and the maximum of the payload column, as numbers: a value
    some row has and that every row is at least (at most). *)
Definition is_min_payload (D : DataFrame) (m : Q) : Prop :=
  (exists r, In r D /\ (Payload_Mass r == m)%Q)
  /\ forall r, In r D -> (m <= Payload_Mass r)%Q.

Definition is_max_payload (D : DataFrame) (m : Q) : Prop :=
  (exists r, In r D /\ (Payload_Mass r == m)%Q)
  /\ forall r, In r D -> (Payload_Mass r <= m)%Q.

(** [z] is [q] with its fractional part dropped. *)
Definition truncation_of (q : Q) (z : Z) : Prop :=
  ((0 <= q)%Q -> (inject_Z z <= q)%Q /\ (q < inject_Z (z + 1))%Q)
  /\ ((q <= 0)%Q -> (inject_Z (z - 1) < q)%Q /\ (q <= inject_Z z)%Q).

(** The slider's default value is the exact pair of bounds of the payload
    column. *)
Definition slider_default_is_exact (csv : DataFrame) : Prop :=
  exists sl, payload_slider (startup csv) = Some sl
    /\ is_min_payload csv (inject_Z (fst (slider_value sl)))
    /\ is_max_payload csv (inject_Z (snd (slider_value sl))).

(** A frame whose heaviest payload, 3696.65 kg, is not a whole number. *)
Definition fractional_df : DataFrame :=
  [ mkLaunch "CCAFS LC-40" 0 0 "F9 v1.0";
    mkLaunch "KSC LC-39A" (73933 # 20) 1 "F9 FT" ].

(** ** The slider's marks and its default view *)

(** [q] is a whole number. *)
Definition whole (q : Q) : Prop := exists z, (q == inject_Z z)%Q.





(** The payload range the slider sends before the user moves it. *)
Definition default_range (sl : RangeSlider) : Q * Q :=
  (inject_Z (fst (slider_value sl)), inject_Z (snd (slider_value sl))).
(** ** The specification's example, run *)

Example pie_all_example :
  pie_data (figure_of (update_pie_chart "ALL") (startup example_df))
  = [(LStr "A", 1%nat); (LStr "B", 1%nat)].
Proof. reflexivity. Qed.

Example pie_site_example :
  pie_data (figure_of (update_pie_chart "A") (startup example_df))
  = [(LStr "Success", 1%nat); (LStr "Failure", 1%nat)].
Proof. reflexivity. Qed.

Example scatter_all_example :
  sc_data (figure_of (update_scatter "ALL" (0, 1000)%Q) (startup example_df))
  = example_df.
Proof. reflexivity. Qed.

Example scatter_site_example :
  sc_data (figure_of (update_scatter "A" (550, 1000)%Q) (startup example_df))
  = [mkLaunch "A" 800 0 "v1"].
Proof. reflexivity. Qed.

(** ** Facts about the data-frame primitives *)

Section SelectFacts.
Context {A : Type}.

Lemma select_map_mask (f : A -> bool) (df : list A) :
  Pandas.select df (map f df) = filter f df.
Proof.
  induction df as [|r df IH]; simpl; [reflexivity|].
  rewrite IH. reflexivity.
Qed.

Lemma select_mask_of_column {B : Type} (col : A -> B) (p : B -> bool)
    (df : list A) :
  Pandas.select df (map p (map col df)) = filter (fun r => p (col r)) df.
Proof. rewrite map_map. apply select_map_mask. Qed.

Lemma mask_and_map (f g : A -> bool) (l : list A) :
  Pandas.mask_and (map f l) (map g l) = map (fun x => f x && g x) l.
Proof.
  induction l as [|x l IH]; simpl; [reflexivity|].
  rewrite IH. reflexivity.
Qed.

Lemma filter_filter (f g : A -> bool) (l : list A) :
  filter g (filter f l) = filter (fun x => f x && g x) l.
Proof.
  induction l as [|x l IH]; simpl; [reflexivity|].
  destruct (f x); simpl; rewrite IH; reflexivity.
Qed.
End SelectFacts.

Lemma nodup_map_injective {A B : Type} (f : A -> B) (l : list A) :
  (forall a b, f a = f b -> a = b) -> NoDup l -> NoDup (map f l).
Proof.
  intros Hinj. induction 1 as [|a l Hnot _ IH]; simpl; constructor.
  - intros Hin. apply in_map_iff in Hin. destruct Hin as (b & E & Hb).
    apply Hinj in E. subst b. contradiction.
  - exact IH.
Qed.

Lemma update_scatter_rows (g : Globals) (s : string) (lo hi : Q) :
  sc_data (figure_of (update_scatter s (lo, hi)) g)
  = filter (in_view s lo hi) (spacex_df g).
Proof.
  unfold figure_of, update_scatter, in_view.
  destruct (String.eqb s "ALL"); cbn;
    unfold Pandas.ge_mask, Pandas.le_mask, Pandas.eq_mask_str;
    rewrite !map_map, mask_and_map, select_map_mask.
  - apply filter_ext. intros r. rewrite andb_true_r. reflexivity.
  - rewrite select_map_mask, filter_filter.
    apply filter_ext. intros r. reflexivity.
Qed.

Lemma in_view_matches (s : string) (lo hi : Q) (r : LaunchRecord) :
  in_view s lo hi r = true <-> matches s lo hi r.
Proof.
  unfold in_view, matches, in_range, site_ok.
  rewrite !andb_true_iff, orb_true_iff, !Qle_bool_iff, !String.eqb_eq.
  tauto.
Qed.

Section KeepsExactly.
Variable P : LaunchRecord -> Prop.
Variable p : LaunchRecord -> bool.
Hypothesis p_decides : forall r, p r = true <-> P r.

Lemma filter_keeps_exactly (D : DataFrame) : keeps_exactly P D (filter p D).
Proof.
  induction D as [|r D IH]; simpl.
  - constructor.
  - destruct (p r) eqn:E.
    + apply keeps_take; [apply p_decides; exact E | exact IH].
    + apply keeps_skip; [| exact IH].
      intros HP. apply p_decides in HP. congruence.
Qed.

Lemma keeps_exactly_filter (D out : DataFrame) :
  keeps_exactly P D out -> out = filter p D.
Proof.
  induction 1 as [|r D out HP _ IH|r D out HP _ IH]; simpl.
  - reflexivity.
  - apply p_decides in HP. rewrite HP, IH. reflexivity.
  - destruct (p r) eqn:E; [|exact IH].
    apply p_decides in E. contradiction.
Qed.
End KeepsExactly.

(** C1. The rows of the scatter figure are the rows of the data frame with
    lo <= payload <= hi and (site filter "ALL" or site equal to the filter):
    each such row once, at its place, no other row, in the frame's order. *)
Theorem update_scatter_keeps_matching_rows (g : Globals) (s : string) (lo hi : Q) :
  let out := sc_data (figure_of (update_scatter s (lo, hi)) g) in
  keeps_exactly (matches s lo hi) (spacex_df g) out
  /\ (forall r, In r out <-> In r (spacex_df g) /\ matches s lo hi r)
  /\ (forall out', keeps_exactly (matches s lo hi) (spacex_df g) out' -> out' = out).
Proof.
  cbv zeta. rewrite update_scatter_rows.
  assert (Hdec : forall r, in_view s lo hi r = true <-> matches s lo hi r)
    by (intros r; apply in_view_matches).
  split; [|split].
  - apply filter_keeps_exactly with (p := in_view s lo hi). exact Hdec.
  - intros r. rewrite filter_In, Hdec. tauto.
  - intros out'. apply keeps_exactly_filter. exact Hdec.
Qed.

(** ** Facts about [groupby(...).size()] *)

Lemma str_lt_trans (a b c : string) : str_lt a b -> str_lt b c -> str_lt a c.
Proof.
  unfold str_lt. intros Hab Hbc.
  apply OrderedTypeEx.String_as_OT.cmp_lt.
  apply OrderedTypeEx.String_as_OT.lt_trans with b;
    apply OrderedTypeEx.String_as_OT.cmp_lt; assumption.
Qed.

Lemma str_lt_neq (a b : string) : str_lt a b -> a <> b.
Proof.
  unfold str_lt. intros H E. subst b.
  assert (String.compare a a = Eq)
    by (apply OrderedTypeEx.String_as_OT.cmp_eq; reflexivity).
  congruence.
Qed.

Lemma str_gt_lt (a b : string) : String.compare a b = Gt -> str_lt b a.
Proof.
  unfold str_lt. intros H. rewrite String.compare_antisym, H. reflexivity.
Qed.

Lemma gb_bump_total (k : string) (acc : list (string * nat)) :
  list_sum (map snd (Pandas.gb_bump k acc)) = S (list_sum (map snd acc)).
Proof.
  induction acc as [|[k' c] t IH]; simpl; [reflexivity|].
  destruct (String.compare k k'); simpl; [reflexivity | reflexivity |].
  rewrite IH. lia.
Qed.

Lemma gb_bump_keys (k x : string) (acc : list (string * nat)) :
  In x (map fst (Pandas.gb_bump k acc)) <-> x = k \/ In x (map fst acc).
Proof.
  induction acc as [|[k' c] t IH]; simpl.
  - intuition congruence.
  - destruct (String.compare k k') eqn:E; simpl.
    + apply String.compare_eq_iff in E. subst k'. intuition congruence.
    + intuition congruence.
    + rewrite IH. intuition congruence.
Qed.

Lemma gb_bump_sorted (k : string) (acc : list (string * nat)) :
  StronglySorted str_lt (map fst acc) ->
  StronglySorted str_lt (map fst (Pandas.gb_bump k acc)).
Proof.
  induction acc as [|[k' c] t IH]; simpl; intros Hs.
  - constructor; constructor.
  - inversion Hs as [|? ? Ht Hall]; subst.
    destruct (String.compare k k') eqn:E; simpl.
    + constructor; assumption.
    + constructor; [exact Hs|].
      constructor; [exact E|].
      eapply Forall_impl; [|exact Hall].
      intros y Hy. apply str_lt_trans with k'; assumption.
    + constructor; [apply IH; exact Ht|].
      apply Forall_forall. intros y Hy.
      apply gb_bump_keys in Hy. destruct Hy as [->|Hy].
      * apply str_gt_lt. exact E.
      * rewrite Forall_forall in Hall. apply Hall. exact Hy.
Qed.

Lemma gb_bump_positive (k : string) (acc : list (string * nat)) :
  Forall (fun e => 0 < snd e) acc ->
  Forall (fun e => 0 < snd e) (Pandas.gb_bump k acc).
Proof.
  induction acc as [|[k' c] t IH]; simpl; intros Hp.
  - constructor; [simpl; lia | constructor].
  - inversion Hp; subst.
    destruct (String.compare k k'); repeat constructor; simpl; auto; lia.
Qed.

Lemma gb_get_below (k : string) (acc : list (string * nat)) :
  Forall (str_lt k) (map fst acc) -> gb_get k acc = 0.
Proof.
  induction acc as [|[k' c] t IH]; simpl; intros H; [reflexivity|].
  inversion H; subst.
  destruct (String.eqb_spec k k') as [->|_].
  - exfalso. eapply str_lt_neq; eauto.
  - apply IH. assumption.
Qed.

Lemma gb_get_bump (k x : string) (acc : list (string * nat)) :
  StronglySorted str_lt (map fst acc) ->
  gb_get x (Pandas.gb_bump k acc)
  = if String.eqb x k then S (gb_get k acc) else gb_get x acc.
Proof.
  induction acc as [|[k' c] t IH]; simpl; intros Hs.
  - destruct (String.eqb x k); reflexivity.
  - inversion Hs as [|? ? Ht Hall]; subst.
    destruct (String.compare k k') eqn:E; simpl.
    + apply String.compare_eq_iff in E. subst k'.
      rewrite String.eqb_refl.
      destruct (String.eqb x k); reflexivity.
    + assert (Hk : String.eqb k k' = false)
        by (apply String.eqb_neq, str_lt_neq; exact E).
      rewrite Hk.
      rewrite (gb_get_below k t).
      * destruct (String.eqb_spec x k) as [->|_]; [|reflexivity].
        reflexivity.
      * eapply Forall_impl; [|exact Hall].
        intros y Hy. apply str_lt_trans with k'; assumption.
    + assert (Hk : String.eqb k k' = false).
      { apply String.eqb_neq. intros ->.
        apply str_gt_lt in E. eapply str_lt_neq; eauto. }
      rewrite Hk, (IH Ht).
      destruct (String.eqb_spec x k') as [->|_]; [|reflexivity].
      rewrite String.eqb_sym, Hk. reflexivity.
Qed.

Lemma sorted_keys_nodup (l : list string) : StronglySorted str_lt l -> NoDup l.
Proof.
  induction 1 as [|a l _ IH Hall]; constructor; [|exact IH].
  intros Hin. rewrite Forall_forall in Hall.
  apply (str_lt_neq a a); auto.
Qed.

Lemma gb_get_entry (k : string) (c : nat) (acc : list (string * nat)) :
  NoDup (map fst acc) -> In (k, c) acc -> gb_get k acc = c.
Proof.
  induction acc as [|[k' c'] t IH]; simpl; intros Hn Hin; [contradiction|].
  inversion Hn as [|? ? Hnot Hn']; subst.
  destruct Hin as [E|Hin].
  - inversion E; subst. rewrite String.eqb_refl. reflexivity.
  - destruct (String.eqb_spec k k') as [->|_].
    + exfalso. apply Hnot. apply in_map_iff. exists (k', c). auto.
    + apply IH; assumption.
Qed.

(** The aggregate after the keys of [todo] are added to [acc]. *)
Lemma groupby_fold (todo : list string) (acc : list (string * nat)) :
  StronglySorted str_lt (map fst acc) ->
  Forall (fun e => 0 < snd e) acc ->
  let res := fold_left (fun a k => Pandas.gb_bump k a) todo acc in
  StronglySorted str_lt (map fst res)
  /\ Forall (fun e => 0 < snd e) res
  /\ list_sum (map snd res) = length todo + list_sum (map snd acc)
  /\ (forall x, gb_get x res = occurrences String.eqb x todo + gb_get x acc)
  /\ (forall x, In x (map fst res) <-> In x todo \/ In x (map fst acc)).
Proof.
  revert acc. induction todo as [|k todo IH]; intros acc Hs Hp; cbn zeta.
  - simpl. repeat split; auto; tauto.
  - simpl fold_left.
    destruct (IH (Pandas.gb_bump k acc)
                (gb_bump_sorted k acc Hs) (gb_bump_positive k acc Hp))
      as (Hs' & Hp' & Ht & Hg & Hk).
    split; [exact Hs'|]. split; [exact Hp'|]. split; [|split].
    + rewrite Ht, gb_bump_total. simpl. lia.
    + intros x. rewrite Hg, (gb_get_bump k x acc Hs).
      unfold occurrences. simpl.
      destruct (String.eqb_spec x k) as [->|_]; simpl; lia.
    + intros x. rewrite Hk, gb_bump_keys. simpl. intuition congruence.
Qed.

Lemma groupby_size_spec (keys : list string) :
  let res := Pandas.groupby_size keys in
  StronglySorted str_lt (map fst res)
  /\ list_sum (map snd res) = length keys
  /\ (forall x, In x (map fst res) <-> In x keys)
  /\ (forall x c, In (x, c) res -> c = occurrences String.eqb x keys /\ 0 < c).
Proof.
  cbn zeta. unfold Pandas.groupby_size.
  destruct (groupby_fold keys [] (SSorted_nil _) (Forall_nil _))
    as (Hs & Hp & Ht & Hg & Hk).
  split; [exact Hs|]. split; [|split].
  - rewrite Ht. simpl. lia.
  - intros x. rewrite Hk. simpl. tauto.
  - intros x c Hin. split.
    + rewrite <- (gb_get_entry x c _ (sorted_keys_nodup _ Hs) Hin).
      rewrite Hg. simpl. lia.
    + rewrite Forall_forall in Hp. apply (Hp (x, c)). exact Hin.
Qed.

(** ** The pie chart for all sites *)

Lemma pie_all_figure (g : Globals) :
  figure_of (update_pie_chart "ALL") g
  = Plotly.pie
      (map (fun e => (LStr (fst e), snd e))
         (Pandas.groupby_size (map Launch_Site (filter is_success (spacex_df g)))))
      "Total Successful Launches by Site".
Proof.
  unfold figure_of, update_pie_chart. cbn.
  unfold Pandas.eq_mask_int. rewrite select_mask_of_column. reflexivity.
Qed.

Lemma occurrences_site (s : string) (p : LaunchRecord -> bool) (D : DataFrame) :
  occurrences String.eqb s (map Launch_Site (filter p D))
  = count_rows (fun r => p r && at_site s r) D.
Proof.
  unfold occurrences, count_rows, at_site.
  induction D as [|r D IH]; simpl; [reflexivity|].
  destruct (p r); simpl; [|exact IH].
  rewrite (String.eqb_sym s). destruct (String.eqb (Launch_Site r) s); simpl; lia.
Qed.

Lemma count_rows_positive (p : LaunchRecord -> bool) (D : DataFrame) :
  0 < count_rows p D <-> exists r, In r D /\ p r = true.
Proof.
  unfold count_rows. split.
  - destruct (filter p D) as [|r l] eqn:E; simpl; [lia|]. intros _.
    exists r. apply filter_In. rewrite E. left. reflexivity.
  - intros (r & Hin & Hp).
    assert (H : In r (filter p D)) by (apply filter_In; auto).
    destruct (filter p D); [contradiction | simpl; lia].
Qed.

Lemma pie_all_entry (g : Globals) (s : string) (c : nat) :
  In (LStr s, c) (pie_data (figure_of (update_pie_chart "ALL") g))
  <-> c = count_rows (fun r => is_success r && at_site s r) (spacex_df g)
      /\ 0 < c.
Proof.
  rewrite pie_all_figure. simpl.
  set (keys := map Launch_Site (filter is_success (spacex_df g))).
  destruct (groupby_size_spec keys) as (Hs & Ht & Hk & He).
  rewrite <- occurrences_site. fold keys.
  rewrite in_map_iff. split.
  - intros ([x c'] & E & Hin). simpl in E. inversion E; subst.
    apply He. exact Hin.
  - intros (-> & Hpos).
    assert (Hx : In s (map fst (Pandas.groupby_size keys))).
    { apply Hk. unfold occurrences in Hpos.
      destruct (filter (String.eqb s) keys) as [|y l] eqn:E; [simpl in Hpos; lia|].
      assert (Hy : In y (filter (String.eqb s) keys)) by (rewrite E; left; reflexivity).
      apply filter_In in Hy. destruct Hy as [Hy Heq].
      apply String.eqb_eq in Heq. subst y. exact Hy. }
    apply in_map_iff in Hx. destruct Hx as ([x c'] & E & Hin). simpl in E. subst x.
    exists (s, c'). split; [|exact Hin]. simpl.
    destruct (He s c' Hin) as [-> _]. reflexivity.
Qed.

Lemma pie_all_names (g : Globals) :
  pie_names (figure_of (update_pie_chart "ALL") g)
  = map LStr (map fst
      (Pandas.groupby_size (map Launch_Site (filter is_success (spacex_df g))))).
Proof.
  rewrite pie_all_figure. unfold pie_names. simpl.
  rewrite !map_map. reflexivity.
Qed.

(** C2. With the site filter "ALL" the pie chart is titled "Total
    Successful Launches by Site"; its slices are named by sites, one slice
    per site, each valued with the number of rows of that site whose class
    is 1; the values add up to the number of rows whose class is 1. *)
Theorem pie_all_counts_successes_per_site (g : Globals) :
  let fig := figure_of (update_pie_chart "ALL") g in
  let D := spacex_df g in
  pie_title fig = "Total Successful Launches by Site"
  /\ pie_total fig = count_rows is_success D
  /\ NoDup (pie_names fig)
  /\ (forall l c, In (l, c) (pie_data fig) <->
        exists s, l = LStr s
          /\ c = count_rows (fun r => is_success r && at_site s r) D
          /\ 0 < c).
Proof.
  cbv zeta. split; [|split; [|split]].
  - rewrite pie_all_figure. reflexivity.
  - rewrite pie_all_figure. unfold pie_total, count_rows. simpl.
    rewrite map_map. rewrite (map_ext _ snd) by reflexivity.
    destruct (groupby_size_spec (map Launch_Site (filter is_success (spacex_df g))))
      as (_ & Ht & _).
    rewrite Ht, length_map. reflexivity.
  - rewrite pie_all_names.
    apply nodup_map_injective; [intros a b E; congruence|].
    apply sorted_keys_nodup.
    apply (groupby_size_spec (map Launch_Site (filter is_success (spacex_df g)))).
  - intros l c. split.
    + intros Hin. destruct l as [s|z].
      * exists s. split; [reflexivity|]. apply pie_all_entry. exact Hin.
      * exfalso. rewrite pie_all_figure in Hin. simpl in Hin.
        apply in_map_iff in Hin. destruct Hin as (e & E & _). discriminate.
    + intros (s & -> & Hc). apply pie_all_entry. exact Hc.
Qed.

(** C10. With the site filter "ALL" the pie chart has a slice for a site
    exactly when some row of that site has class 1; no slice has the value
    0, and a site none of whose rows has class 1 has no slice. *)
Theorem pie_all_lists_sites_with_a_success (g : Globals) :
  let fig := figure_of (update_pie_chart "ALL") g in
  let D := spacex_df g in
  (forall s, (exists c, In (LStr s, c) (pie_data fig)) <->
             (exists r, In r D /\ Launch_Site r = s /\ class r = 1%Z))
  /\ (forall l c, In (l, c) (pie_data fig) -> c <> 0)
  /\ (forall s, (forall r, In r D -> Launch_Site r = s -> class r <> 1%Z) ->
                ~ In (LStr s) (pie_names fig)).
Proof.
  cbv zeta.
  assert (Hiff : forall s,
    (exists c, In (LStr s, c) (pie_data (figure_of (update_pie_chart "ALL") g))) <->
    (exists r, In r (spacex_df g) /\ Launch_Site r = s /\ class r = 1%Z)).
  { intros s. split.
    - intros (c & Hin). apply pie_all_entry in Hin. destruct Hin as (-> & Hpos).
      apply count_rows_positive in Hpos. destruct Hpos as (r & Hr & Hp).
      apply andb_true_iff in Hp. destruct Hp as (H1 & H2).
      exists r. split; [exact Hr|]. split.
      + apply String.eqb_eq. exact H2.
      + apply Z.eqb_eq. exact H1.
    - intros (r & Hr & Hs & Hc).
      exists (count_rows (fun r => is_success r && at_site s r) (spacex_df g)).
      apply pie_all_entry. split; [reflexivity|].
      apply count_rows_positive. exists r. split; [exact Hr|].
      unfold is_success, at_site. rewrite Hs, Hc, String.eqb_refl. reflexivity. }
  split; [exact Hiff|]. split.
  - intros l c Hin. destruct l as [s|z].
    + apply pie_all_entry in Hin. lia.
    + rewrite pie_all_figure in Hin. simpl in Hin.
      apply in_map_iff in Hin. destruct Hin as (e & E & _). discriminate.
  - intros s Hnone Hin. unfold pie_names in Hin.
    apply in_map_iff in Hin. destruct Hin as ([l c] & E & Hin). simpl in E. subst l.
    destruct (proj1 (Hiff s) (ex_intro _ c Hin)) as (r & Hr & Hs & Hc).
    exact (Hnone r Hr Hs Hc).
Qed.

(** ** Facts about [value_counts()] *)

Lemma vc_bump_total (k : Z) (acc : list (Z * nat)) :
  list_sum (map snd (Pandas.vc_bump k acc)) = S (list_sum (map snd acc)).
Proof.
  induction acc as [|[k' c] t IH]; simpl; [reflexivity|].
  destruct (Z.eqb k k'); simpl; [reflexivity|]. rewrite IH. lia.
Qed.

Lemma vc_bump_keys (k x : Z) (acc : list (Z * nat)) :
  In x (map fst (Pandas.vc_bump k acc)) <-> x = k \/ In x (map fst acc).
Proof.
  induction acc as [|[k' c] t IH]; simpl.
  - intuition congruence.
  - destruct (Z.eqb_spec k k') as [->|_]; simpl.
    + intuition congruence.
    + rewrite IH. intuition congruence.
Qed.

Lemma vc_bump_nodup (k : Z) (acc : list (Z * nat)) :
  NoDup (map fst acc) -> NoDup (map fst (Pandas.vc_bump k acc)).
Proof.
  induction acc as [|[k' c] t IH]; simpl; intros Hn.
  - constructor; [intros [] | constructor].
  - inversion Hn as [|? ? Hnot Hn']; subst.
    destruct (Z.eqb_spec k k') as [->|Hne]; simpl.
    + constructor; assumption.
    + constructor; [|apply IH; exact Hn'].
      rewrite vc_bump_keys. intros [E|Hin]; [congruence | contradiction].
Qed.

Lemma vc_bump_positive (k : Z) (acc : list (Z * nat)) :
  Forall (fun e => 0 < snd e) acc ->
  Forall (fun e => 0 < snd e) (Pandas.vc_bump k acc).
Proof.
  induction acc as [|[k' c] t IH]; simpl; intros Hp.
  - constructor; [simpl; lia | constructor].
  - inversion Hp; subst.
    destruct (Z.eqb k k'); constructor; simpl; auto; lia.
Qed.

Lemma vc_get_bump (k x : Z) (acc : list (Z * nat)) :
  vc_get x (Pandas.vc_bump k acc)
  = if Z.eqb x k then S (vc_get k acc) else vc_get x acc.
Proof.
  induction acc as [|[k' c] t IH]; simpl.
  - destruct (Z.eqb x k); reflexivity.
  - destruct (Z.eqb_spec k k') as [->|Hne]; simpl.
    + destruct (Z.eqb x k'); reflexivity.
    + rewrite IH. destruct (Z.eqb_spec x k') as [->|_]; [|reflexivity].
      destruct (Z.eqb_spec k' k); [congruence | reflexivity].
Qed.

Lemma vc_get_entry (k : Z) (c : nat) (acc : list (Z * nat)) :
  NoDup (map fst acc) -> In (k, c) acc -> vc_get k acc = c.
Proof.
  induction acc as [|[k' c'] t IH]; simpl; intros Hn Hin; [contradiction|].
  inversion Hn as [|? ? Hnot Hn']; subst.
  destruct Hin as [E|Hin].
  - inversion E; subst. rewrite Z.eqb_refl. reflexivity.
  - destruct (Z.eqb_spec k k') as [->|_].
    + exfalso. apply Hnot. apply in_map_iff. exists (k', c). auto.
    + apply IH; assumption.
Qed.

Lemma vc_tally_fold (todo : list Z) (acc : list (Z * nat)) :
  NoDup (map fst acc) ->
  Forall (fun e => 0 < snd e) acc ->
  let res := fold_left (fun a k => Pandas.vc_bump k a) todo acc in
  NoDup (map fst res)
  /\ Forall (fun e => 0 < snd e) res
  /\ list_sum (map snd res) = length todo + list_sum (map snd acc)
  /\ (forall x, vc_get x res = occurrences Z.eqb x todo + vc_get x acc)
  /\ (forall x, In x (map fst res) <-> In x todo \/ In x (map fst acc)).
Proof.
  revert acc. induction todo as [|k todo IH]; intros acc Hn Hp; cbn zeta.
  - simpl. repeat split; auto; tauto.
  - simpl fold_left.
    destruct (IH (Pandas.vc_bump k acc)
                (vc_bump_nodup k acc Hn) (vc_bump_positive k acc Hp))
      as (Hn' & Hp' & Ht & Hg & Hk).
    split; [exact Hn'|]. split; [exact Hp'|]. split; [|split].
    + rewrite Ht, vc_bump_total. simpl. lia.
    + intros x. rewrite Hg, vc_get_bump.
      unfold occurrences. simpl.
      destruct (Z.eqb_spec x k) as [->|_]; simpl; lia.
    + intros x. rewrite Hk, vc_bump_keys. simpl. intuition congruence.
Qed.

Lemma vc_insert_perm (e : Z * nat) (l : list (Z * nat)) :
  Permutation (Pandas.vc_insert e l) (e :: l).
Proof.
  induction l as [|h t IH]; simpl; [reflexivity|].
  destruct (Nat.leb (snd h) (snd e)); [reflexivity|].
  rewrite IH. apply perm_swap.
Qed.

Lemma vc_sort_perm (l : list (Z * nat)) : Permutation (Pandas.vc_sort l) l.
Proof.
  induction l as [|e l IH]; simpl; [reflexivity|].
  rewrite vc_insert_perm, IH. reflexivity.
Qed.

(** The larger count comes first. *)
Lemma vc_sort_descending (l : list (Z * nat)) :
  Sorted (fun a b => snd b <= snd a) (Pandas.vc_sort l).
Proof.
  induction l as [|e l IH]; simpl; [constructor|].
  induction IH as [|h t Ht IHt Hhd]; simpl.
  - repeat constructor.
  - destruct (Nat.leb_spec (snd h) (snd e)).
    + constructor; [constructor; assumption | constructor; assumption].
    + constructor; [exact IHt|].
      destruct t as [|h' t']; simpl.
      * constructor. lia.
      * inversion Hhd; subst.
        destruct (Nat.leb (snd h') (snd e)); constructor; [lia | assumption].
Qed.

Lemma list_sum_perm (l1 l2 : list nat) :
  Permutation l1 l2 -> list_sum l1 = list_sum l2.
Proof. induction 1; simpl; lia. Qed.

Lemma value_counts_spec (col : list Z) :
  let res := Pandas.value_counts col in
  NoDup (map fst res)
  /\ list_sum (map snd res) = length col
  /\ (forall x, In x (map fst res) <-> In x col)
  /\ (forall x c, In (x, c) res <-> c = occurrences Z.eqb x col /\ 0 < c).
Proof.
  cbn zeta. unfold Pandas.value_counts, Pandas.vc_tally.
  destruct (vc_tally_fold col [] (NoDup_nil _) (Forall_nil _))
    as (Hn & Hp & Ht & Hg & Hk).
  set (tally := fold_left (fun a k => Pandas.vc_bump k a) col []) in *.
  pose proof (vc_sort_perm tally) as Hperm.
  assert (HIn : forall e, In e (Pandas.vc_sort tally) <-> In e tally).
  { intros e. split; apply Permutation_in; [exact Hperm | symmetry; exact Hperm]. }
  assert (Hkeys : Permutation (map fst (Pandas.vc_sort tally)) (map fst tally))
    by (apply Permutation_map; exact Hperm).
  split; [|split; [|split]].
  - apply (Permutation_NoDup (l := map fst tally)); [symmetry; exact Hkeys | exact Hn].
  - rewrite (list_sum_perm _ (map snd tally)) by (apply Permutation_map; exact Hperm).
    rewrite Ht. simpl. lia.
  - intros x. split; intros H.
    + apply (Permutation_in _ Hkeys) in H. apply Hk in H.
      destruct H as [H|[]]. exact H.
    + apply (Permutation_in _ (Permutation_sym Hkeys)).
      apply Hk. left. exact H.
  - intros x c. rewrite HIn. split.
    + intros Hin. split.
      * rewrite <- (vc_get_entry x c tally Hn Hin), Hg. simpl. lia.
      * rewrite Forall_forall in Hp. apply (Hp (x, c)). exact Hin.
    + intros (-> & Hpos).
      assert (Hx : In x (map fst tally)).
      { apply Hk. left. unfold occurrences in Hpos.
        destruct (filter (Z.eqb x) col) as [|y l] eqn:E; [simpl in Hpos; lia|].
        assert (Hy : In y (filter (Z.eqb x) col)) by (rewrite E; left; reflexivity).
        apply filter_In in Hy. destruct Hy as [Hy Heq].
        apply Z.eqb_eq in Heq. subst y. exact Hy. }
      apply in_map_iff in Hx. destruct Hx as ([x' c'] & E & Hin). simpl in E. subst x'.
      rewrite <- (vc_get_entry x c' tally Hn Hin) in Hin.
      rewrite Hg in Hin. simpl in Hin. rewrite Nat.add_0_r in Hin. exact Hin.
Qed.

(** ** The pie chart for one site *)

Lemma pie_site_figure (g : Globals) (s : string) :
  s <> "ALL" ->
  figure_of (update_pie_chart s) g
  = Plotly.pie
      (map (fun e => (replace_class (fst e), snd e))
         (Pandas.value_counts (map class (filter (at_site s) (spacex_df g)))))
      ("Success vs Failure for " ++ s).
Proof.
  intros Hs. unfold figure_of, update_pie_chart.
  destruct (String.eqb_spec s "ALL") as [E|_]; [contradiction|]. cbn.
  unfold Pandas.eq_mask_str. rewrite select_mask_of_column. reflexivity.
Qed.

Lemma replace_class_injective (a b : Z) :
  replace_class a = replace_class b -> a = b.
Proof.
  unfold replace_class.
  destruct (Z.eqb_spec a 1), (Z.eqb_spec a 0), (Z.eqb_spec b 1), (Z.eqb_spec b 0);
    intros E; try congruence; try discriminate.
Qed.

Lemma replace_class_success (k : Z) : replace_class k = LStr "Success" <-> k = 1%Z.
Proof.
  split; [|intros ->; reflexivity].
  intros E. apply replace_class_injective. rewrite E. reflexivity.
Qed.

Lemma replace_class_failure (k : Z) : replace_class k = LStr "Failure" <-> k = 0%Z.
Proof.
  split; [|intros ->; reflexivity].
  intros E. apply replace_class_injective. rewrite E. reflexivity.
Qed.

Lemma occurrences_class (k : Z) (p : LaunchRecord -> bool) (D : DataFrame) :
  occurrences Z.eqb k (map class (filter p D))
  = count_rows (fun r => p r && Z.eqb (class r) k) D.
Proof.
  unfold occurrences, count_rows.
  induction D as [|r D IH]; simpl; [reflexivity|].
  destruct (p r); simpl; [|exact IH].
  rewrite (Z.eqb_sym k). destruct (Z.eqb (class r) k); simpl; lia.
Qed.

Lemma pie_site_entry (g : Globals) (s : string) (l : Label) (c : nat) :
  s <> "ALL" ->
  In (l, c) (pie_data (figure_of (update_pie_chart s) g))
  <-> exists k, l = replace_class k
        /\ c = count_rows (fun r => at_site s r && Z.eqb (class r) k) (spacex_df g)
        /\ 0 < c.
Proof.
  intros Hs. rewrite (pie_site_figure g s Hs). simpl.
  set (col := map class (filter (at_site s) (spacex_df g))).
  destruct (value_counts_spec col) as (_ & _ & _ & He).
  rewrite in_map_iff. split.
  - intros ([k c'] & E & Hin). simpl in E. inversion E; subst.
    exists k. split; [reflexivity|].
    rewrite <- occurrences_class. apply He. exact Hin.
  - intros (k & -> & Hc). exists (k, c). split; [reflexivity|].
    apply He. unfold col. rewrite occurrences_class. exact Hc.
Qed.

Lemma rows_with_class (s : string) (k : Z) (D : DataFrame) :
  0 < count_rows (fun r => at_site s r && Z.eqb (class r) k) D
  <-> exists r, In r D /\ Launch_Site r = s /\ class r = k.
Proof.
  rewrite count_rows_positive. unfold at_site.
  split; intros (r & Hr & H); exists r; (split; [exact Hr|]).
  - apply andb_true_iff in H. destruct H as [H1 H2].
    split; [apply String.eqb_eq; exact H1 | apply Z.eqb_eq; exact H2].
  - destruct H as [-> ->]. rewrite String.eqb_refl, Z.eqb_refl. reflexivity.
Qed.

(** C3. With a site filter S other than "ALL" the pie chart is titled
    "Success vs Failure for S"; its values add up to the number of rows of
    site S; a slice is a class of those rows, relabelled (1 to "Success",
    0 to "Failure"), valued with the number of rows of site S of that class;
    and on a frame whose classes are 0 or 1 the names are exactly those of
    "Success" and "Failure" for which a row of site S of that class exists. *)
Theorem pie_site_counts_outcomes (g : Globals) (s : string) :
  s <> "ALL" ->
  let fig := figure_of (update_pie_chart s) g in
  let D := spacex_df g in
  pie_title fig = "Success vs Failure for " ++ s
  /\ pie_total fig = count_rows (at_site s) D
  /\ NoDup (pie_names fig)
  /\ (forall l c, In (l, c) (pie_data fig) <->
        exists k, l = replace_class k
          /\ c = count_rows (fun r => at_site s r && Z.eqb (class r) k) D
          /\ 0 < c)
  /\ (forall c, In (LStr "Success", c) (pie_data fig) <->
        c = count_rows (fun r => at_site s r && is_success r) D /\ 0 < c)
  /\ (forall c, In (LStr "Failure", c) (pie_data fig) <->
        c = count_rows (fun r => at_site s r && is_failure r) D /\ 0 < c)
  /\ (binary_classes D ->
      forall l, In l (pie_names fig) <->
        (l = LStr "Success"
           /\ exists r, In r D /\ Launch_Site r = s /\ class r = 1%Z)
        \/ (l = LStr "Failure"
           /\ exists r, In r D /\ Launch_Site r = s /\ class r = 0%Z)).
Proof.
  intros Hs. cbv zeta.
  pose proof (fun l c => pie_site_entry g s l c Hs) as Hentry.
  split; [|split; [|split; [|split; [|split; [|split]]]]].
  - rewrite (pie_site_figure g s Hs). reflexivity.
  - rewrite (pie_site_figure g s Hs). unfold pie_total, count_rows. simpl.
    rewrite map_map. rewrite (map_ext _ snd) by reflexivity.
    destruct (value_counts_spec (map class (filter (at_site s) (spacex_df g))))
      as (_ & Ht & _).
    rewrite Ht, length_map. reflexivity.
  - rewrite (pie_site_figure g s Hs). unfold pie_names. simpl.
    rewrite map_map. rewrite (map_ext _ (fun e => replace_class (fst e))) by reflexivity.
    rewrite <- map_map. apply nodup_map_injective; [apply replace_class_injective|].
    apply (value_counts_spec (map class (filter (at_site s) (spacex_df g)))).
  - exact Hentry.
  - intros c. rewrite Hentry. split.
    + intros (k & E & Hc). symmetry in E. apply replace_class_success in E.
      subst k. exact Hc.
    + intros Hc. exists 1%Z. split; [reflexivity | exact Hc].
  - intros c. rewrite Hentry. split.
    + intros (k & E & Hc). symmetry in E. apply replace_class_failure in E.
      subst k. exact Hc.
    + intros Hc. exists 0%Z. split; [reflexivity | exact Hc].
  - intros Hbin l. unfold pie_names. rewrite in_map_iff. split.
    + intros ([l' c] & E & Hin). simpl in E. subst l'.
      apply Hentry in Hin. destruct Hin as (k & -> & -> & Hpos).
      apply rows_with_class in Hpos. destruct Hpos as (r & Hr & Hsite & Hk).
      unfold binary_classes in Hbin. rewrite Forall_forall in Hbin.
      destruct (Hbin r Hr) as [H0|H1].
      * right. rewrite <- Hk, H0. split; [reflexivity|].
        exists r. auto.
      * left. rewrite <- Hk, H1. split; [reflexivity|].
        exists r. auto.
    + intros [(-> & Hex)|(-> & Hex)].
      * apply rows_with_class in Hex.
        exists (LStr "Success", count_rows
                  (fun r => at_site s r && Z.eqb (class r) 1) (spacex_df g)).
        split; [reflexivity|]. apply Hentry. exists 1%Z. auto.
      * apply rows_with_class in Hex.
        exists (LStr "Failure", count_rows
                  (fun r => at_site s r && Z.eqb (class r) 0) (spacex_df g)).
        split; [reflexivity|]. apply Hentry. exists 0%Z. auto.
Qed.

(** An instance of C3: site "A" of the specification's example. *)
Lemma pie_site_counts_outcomes_witness :
  let fig := figure_of (update_pie_chart "A") (startup example_df) in
  "A" <> "ALL"
  /\ pie_title fig = "Success vs Failure for A"
  /\ pie_total fig = 2
  /\ (forall l, In l (pie_names fig) <-> l = LStr "Success" \/ l = LStr "Failure").
Proof.
  assert (Hs : "A" <> "ALL") by discriminate.
  destruct (pie_site_counts_outcomes (startup example_df) "A" Hs)
    as (Ht & Hsum & _ & _ & _ & _ & Hnames).
  assert (Hbin : binary_classes (spacex_df (startup example_df)))
    by (repeat constructor).
  specialize (Hnames Hbin).
  cbv zeta. split; [exact Hs|]. split; [exact Ht|]. split; [exact Hsum|].
  intros l. rewrite Hnames. split.
  - intros [[-> _]|[-> _]]; [left | right]; reflexivity.
  - intros [->| ->]; [left | right]; (split; [reflexivity|]).
    + exists (mkLaunch "A" 500 1 "v1"). simpl. tauto.
    + exists (mkLaunch "A" 800 0 "v1"). simpl. tauto.
Defined.

(** ** Facts about [min()], [max()] and [int()] *)

Lemma fold_min_spec (t : list Q) (x : Q) :
  let m := fold_left (fun m y => if Qle_bool m y then m else y) t x in
  (m = x \/ In m t) /\ (m <= x)%Q /\ Forall (fun y => (m <= y)%Q) t.
Proof.
  revert x. induction t as [|y t IH]; intros x; cbn zeta; simpl.
  - split; [left; reflexivity|]. split; [apply Qle_refl | constructor].
  - destruct (IH (if Qle_bool x y then x else y)) as (Hin & Hle & Hall).
    set (m := fold_left _ t _) in *.
    destruct (Qle_bool x y) eqn:E.
    + apply Qle_bool_iff in E. split; [tauto|]. split; [exact Hle|].
      constructor; [|exact Hall]. apply Qle_trans with x; assumption.
    + assert (Hyx : (y <= x)%Q).
      { apply Qlt_le_weak, Qnot_le_lt. intros H.
        apply Qle_bool_iff in H. congruence. }
      split; [destruct Hin as [->|Hin]; auto|].
      split; [apply Qle_trans with y; assumption|].
      constructor; assumption.
Qed.

Lemma fold_max_spec (t : list Q) (x : Q) :
  let m := fold_left (fun m y => if Qle_bool y m then m else y) t x in
  (m = x \/ In m t) /\ (x <= m)%Q /\ Forall (fun y => (y <= m)%Q) t.
Proof.
  revert x. induction t as [|y t IH]; intros x; cbn zeta; simpl.
  - split; [left; reflexivity|]. split; [apply Qle_refl | constructor].
  - destruct (IH (if Qle_bool y x then x else y)) as (Hin & Hle & Hall).
    set (m := fold_left _ t _) in *.
    destruct (Qle_bool y x) eqn:E.
    + apply Qle_bool_iff in E. split; [tauto|]. split; [exact Hle|].
      constructor; [|exact Hall]. apply Qle_trans with x; assumption.
    + assert (Hxy : (x <= y)%Q).
      { apply Qlt_le_weak, Qnot_le_lt. intros H.
        apply Qle_bool_iff in H. congruence. }
      split; [destruct Hin as [->|Hin]; auto|].
      split; [apply Qle_trans with y; assumption|].
      constructor; assumption.
Qed.

Lemma series_min_spec (col : list Q) (m : Q) :
  Pandas.series_min col = Some m ->
  In m col /\ forall x, In x col -> (m <= x)%Q.
Proof.
  destruct col as [|x t]; simpl; [discriminate|]. intros E. inversion E; subst.
  destruct (fold_min_spec t x) as (Hin & Hle & Hall).
  split; [destruct Hin as [H|H]; [left; symmetry; exact H | right; exact H]|].
  intros y [<-|Hy]; [exact Hle|].
  rewrite Forall_forall in Hall. apply Hall. exact Hy.
Qed.

Lemma series_max_spec (col : list Q) (m : Q) :
  Pandas.series_max col = Some m ->
  In m col /\ forall x, In x col -> (x <= m)%Q.
Proof.
  destruct col as [|x t]; simpl; [discriminate|]. intros E. inversion E; subst.
  destruct (fold_max_spec t x) as (Hin & Hle & Hall).
  split; [destruct Hin as [H|H]; [left; symmetry; exact H | right; exact H]|].
  intros y [<-|Hy]; [exact Hle|].
  rewrite Forall_forall in Hall. apply Hall. exact Hy.
Qed.

Lemma min_payload_is_min (csv : DataFrame) (m : Q) :
  min_payload (startup csv) = Some m -> is_min_payload csv m.
Proof.
  simpl. intros E. apply series_min_spec in E. destruct E as (Hin & Hle).
  apply in_map_iff in Hin. destruct Hin as (r & Hr & Hin).
  split.
  - exists r. split; [exact Hin|]. rewrite Hr. apply Qeq_refl.
  - intros r' Hr'. apply Hle. apply in_map. exact Hr'.
Qed.

Lemma max_payload_is_max (csv : DataFrame) (m : Q) :
  max_payload (startup csv) = Some m -> is_max_payload csv m.
Proof.
  simpl. intros E. apply series_max_spec in E. destruct E as (Hin & Hle).
  apply in_map_iff in Hin. destruct Hin as (r & Hr & Hin).
  split.
  - exists r. split; [exact Hin|]. rewrite Hr. apply Qeq_refl.
  - intros r' Hr'. apply Hle. apply in_map. exact Hr'.
Qed.

Lemma py_int_truncates (q : Q) : truncation_of q (py_int q).
Proof.
  destruct q as [n d]. unfold truncation_of, py_int, Qle, Qlt. simpl.
  pose proof (Z.quot_rem' n (Zpos d)) as Hdiv.
  pose proof (Pos2Z.is_pos d) as Hd.
  split; intros Hsign.
  - assert (Hn : (0 <= n)%Z) by lia.
    pose proof (Z.rem_bound_pos n (Zpos d) Hn Hd). nia.
  - assert (Hn : (n <= 0)%Z) by lia.
    pose proof (Z.rem_nonpos n (Zpos d) ltac:(lia) Hn) as Hr.
    pose proof (Z.rem_bound_abs n (Zpos d) ltac:(lia)) as Ha.
    nia.
Qed.

Lemma py_int_of_integer (q : Q) (z : Z) : (q == inject_Z z)%Q -> py_int q = z.
Proof.
  destruct q as [n d]. unfold py_int, Qeq. simpl. intros E.
  assert (n = (z * Zpos d)%Z) as -> by lia.
  apply Z.quot_mul. lia.
Qed.

(** ** Filters that match nothing, or everything *)

Lemma filter_none {A : Type} (p : A -> bool) (l : list A) :
  (forall x, In x l -> p x = false) -> filter p l = [].
Proof.
  induction l as [|x l IH]; simpl; intros H; [reflexivity|].
  rewrite (H x (or_introl eq_refl)). apply IH. intros y Hy. apply H. right. exact Hy.
Qed.

Lemma filter_all {A : Type} (p : A -> bool) (l : list A) :
  (forall x, In x l -> p x = true) -> filter p l = l.
Proof.
  induction l as [|x l IH]; simpl; intros H; [reflexivity|].
  rewrite (H x (or_introl eq_refl)). f_equal. apply IH.
  intros y Hy. apply H. right. exact Hy.
Qed.

Lemma not_in_view (s : string) (lo hi : Q) (r : LaunchRecord) :
  ~ matches s lo hi r -> in_view s lo hi r = false.
Proof.
  intros H. destruct (in_view s lo hi r) eqn:E; [|reflexivity].
  apply in_view_matches in E. contradiction.
Qed.

(** C4. A site filter that is not "ALL" and is the site of no row gives a
    pie chart without slices and, for every payload range, a scatter chart
    without rows; both callbacks return their figure. *)
Theorem unknown_site_gives_empty_figures (g : Globals) (s : string) :
  s <> "ALL" ->
  (forall r, In r (spacex_df g) -> Launch_Site r <> s) ->
  pie_data (figure_of (update_pie_chart s) g) = []
  /\ forall lo hi, sc_data (figure_of (update_scatter s (lo, hi)) g) = [].
Proof.
  intros Hs Habsent. split.
  - rewrite (pie_site_figure g s Hs). simpl.
    rewrite filter_none; [reflexivity|].
    intros r Hr. unfold at_site. apply String.eqb_neq. apply Habsent. exact Hr.
  - intros lo hi. rewrite update_scatter_rows.
    apply filter_none. intros r Hr. apply not_in_view.
    intros [_ [E|E]]; [contradiction | exact (Habsent r Hr E)].
Qed.

(** An instance of C4: site "C" on the specification's example. *)
Lemma unknown_site_gives_empty_figures_witness :
  "C" <> "ALL"
  /\ (forall r, In r example_df -> Launch_Site r <> "C")
  /\ pie_data (figure_of (update_pie_chart "C") (startup example_df)) = []
  /\ sc_data (figure_of (update_scatter "C" (0, 1000)%Q) (startup example_df)) = [].
Proof.
  assert (Hs : "C" <> "ALL") by discriminate.
  assert (Habsent : forall r, In r (spacex_df (startup example_df)) ->
                              Launch_Site r <> "C").
  { simpl. intros r [<-|[<-|[<-|[]]]]; discriminate. }
  destruct (unknown_site_gives_empty_figures (startup example_df) "C" Hs Habsent)
    as [Hpie Hsc].
  split; [exact Hs|]. split; [exact Habsent|]. split; [exact Hpie|].
  apply Hsc.
Defined.

(** C5. A payload range with low > high, or lying wholly below the least
    payload or wholly above the greatest, gives a scatter chart without
    rows, whatever the site filter; the callback returns its figure. *)
Theorem invalid_range_gives_no_rows (g : Globals) (s : string) (lo hi : Q) :
  (hi < lo)%Q
  \/ (exists m, is_min_payload (spacex_df g) m /\ (hi < m)%Q)
  \/ (exists m, is_max_payload (spacex_df g) m /\ (m < lo)%Q) ->
  sc_data (figure_of (update_scatter s (lo, hi)) g) = [].
Proof.
  intros H. rewrite update_scatter_rows.
  apply filter_none. intros r Hr. apply not_in_view.
  intros [[Hlo Hhi] _].
  destruct H as [H|[(m & [_ Hm] & H)|(m & [_ Hm] & H)]].
  - apply (Qlt_irrefl hi). apply Qlt_le_trans with lo; [exact H|].
    apply Qle_trans with (Payload_Mass r); assumption.
  - apply (Qlt_irrefl hi). apply Qlt_le_trans with m; [exact H|].
    apply Qle_trans with (Payload_Mass r); [apply Hm; exact Hr | exact Hhi].
  - apply (Qlt_irrefl m). apply Qlt_le_trans with lo; [exact H|].
    apply Qle_trans with (Payload_Mass r); [exact Hlo | apply Hm; exact Hr].
Qed.

(** An instance of C5: the range [1000, 0] on the specification's example. *)
Lemma invalid_range_gives_no_rows_witness :
  (0 < 1000)%Q
  /\ sc_data (figure_of (update_scatter "ALL" (1000, 0)%Q) (startup example_df)) = [].
Proof.
  assert (H : (0 < 1000)%Q) by reflexivity.
  split; [exact H|].
  apply (invalid_range_gives_no_rows (startup example_df) "ALL" 1000 0).
  left. exact H.
Defined.

(** C7. With the site filter "ALL" and the payload range from the least to
    the greatest payload of the frame, the scatter chart holds every row of
    the frame. *)
Theorem full_range_keeps_every_row (g : Globals) (lo hi : Q) :
  is_min_payload (spacex_df g) lo ->
  is_max_payload (spacex_df g) hi ->
  let out := sc_data (figure_of (update_scatter "ALL" (lo, hi)) g) in
  out = spacex_df g /\ forall r, In r (spacex_df g) -> In r out.
Proof.
  intros [_ Hmin] [_ Hmax]. cbv zeta.
  assert (E : sc_data (figure_of (update_scatter "ALL" (lo, hi)) g) = spacex_df g).
  { rewrite update_scatter_rows. apply filter_all. intros r Hr.
    apply in_view_matches. split; [split|].
    - apply Hmin. exact Hr.
    - apply Hmax. exact Hr.
    - left. reflexivity. }
  split; [exact E|]. intros r Hr. rewrite E. exact Hr.
Qed.

(** An instance of C7: the bounds the program computes at start-up for the
    specification's example. *)
Lemma full_range_keeps_every_row_witness :
  min_payload (startup example_df) = Some 500%Q
  /\ max_payload (startup example_df) = Some 800%Q
  /\ sc_data (figure_of (update_scatter "ALL" (500, 800)%Q) (startup example_df))
     = example_df.
Proof.
  assert (Hmin : min_payload (startup example_df) = Some 500%Q) by reflexivity.
  assert (Hmax : max_payload (startup example_df) = Some 800%Q) by reflexivity.
  split; [exact Hmin|]. split; [exact Hmax|].
  apply (full_range_keeps_every_row (startup example_df) 500 800).
  - apply min_payload_is_min. exact Hmin.
  - apply max_payload_is_max. exact Hmax.
Defined.

(** ** The slider's default value *)

(** C6, as stated, fails: on a frame whose greatest payload is 3696.65 the
    slider's default upper end is 3696, which is the payload of no row. *)
Lemma slider_default_not_exact : ~ slider_default_is_exact fractional_df.
Proof.
  intros (sl & Hsl & _ & [(r & Hr & Heq) _]).
  vm_compute in Hsl. inversion Hsl; subst sl; clear Hsl.
  simpl in Hr, Heq.
  destruct Hr as [<-|[<-|[]]]; vm_compute in Heq; discriminate.
Qed.

(** C6, amended.  On a frame with at least one row the slider's default
    value is the pair [int(min), int(max)]: the least and the greatest
    payload, each with its fractional part dropped; an end that is a whole
    number is kept as it is. *)
Theorem slider_default_truncates_bounds (csv : DataFrame) :
  csv <> [] ->
  exists sl mn mx,
    payload_slider (startup csv) = Some sl
    /\ is_min_payload csv mn /\ is_max_payload csv mx
    /\ slider_value sl = (py_int mn, py_int mx)
    /\ truncation_of mn (fst (slider_value sl))
    /\ truncation_of mx (snd (slider_value sl))
    /\ (forall z, (mn == inject_Z z)%Q -> fst (slider_value sl) = z)
    /\ (forall z, (mx == inject_Z z)%Q -> snd (slider_value sl) = z).
Proof.
  intros Hne. destruct csv as [|r csv]; [contradiction|].
  destruct (min_payload (startup (r :: csv))) as [mn|] eqn:Emin; [|discriminate].
  destruct (max_payload (startup (r :: csv))) as [mx|] eqn:Emax; [|discriminate].
  unfold payload_slider. rewrite Emin, Emax.
  eexists. exists mn, mx. split; [reflexivity|]. simpl slider_value.
  split; [apply min_payload_is_min; exact Emin|].
  split; [apply max_payload_is_max; exact Emax|].
  split; [reflexivity|].
  split; [apply py_int_truncates|].
  split; [apply py_int_truncates|].
  split; intros z Hz; apply py_int_of_integer; exact Hz.
Qed.

(** An instance of amended C6: the fractional frame, default (0, 3696). *)
Lemma slider_default_truncates_bounds_witness :
  fractional_df <> []
  /\ exists sl, payload_slider (startup fractional_df) = Some sl
       /\ slider_value sl = (0%Z, 3696%Z).
Proof.
  assert (Hne : fractional_df <> []) by discriminate.
  split; [exact Hne|].
  destruct (slider_default_truncates_bounds fractional_df Hne)
    as (sl & mn & mx & Hsl & _).
  exists sl. split; [exact Hsl|].
  vm_compute in Hsl. inversion Hsl. reflexivity.
Defined.

(** ** What the callbacks leave behind, and the scatter chart's axis *)

(** C8. Neither callback changes the globals of the module: the data frame,
    and everything else in them, is after the call what it was before. *)
Theorem callbacks_leave_globals_unchanged (g : Globals) :
  (forall s, globals_after (update_pie_chart s) g = g)
  /\ (forall s range, globals_after (update_scatter s range) g = g)
  /\ (forall s, spacex_df (globals_after (update_pie_chart s) g) = spacex_df g)
  /\ (forall s range,
        spacex_df (globals_after (update_scatter s range) g) = spacex_df g).
Proof.
  assert (Hpie : forall s, globals_after (update_pie_chart s) g = g).
  { intros s. unfold globals_after, update_pie_chart.
    destruct (String.eqb s "ALL"); reflexivity. }
  assert (Hsc : forall s range, globals_after (update_scatter s range) g = g).
  { intros s [lo hi]. unfold globals_after, update_scatter.
    destruct (String.eqb s "ALL"); reflexivity. }
  split; [exact Hpie|]. split; [exact Hsc|]. split.
  - intros s. rewrite Hpie. reflexivity.
  - intros s range. rewrite Hsc. reflexivity.
Qed.

(** C9. The scatter chart's y axis has the tick values 0 and 1 and no
    other; 0 is labelled "Failure" and 1 is labelled "Success". *)
Theorem scatter_yaxis_ticks (g : Globals) (s : string) (range : Q * Q) :
  let fig := figure_of (update_scatter s range) g in
  tickvals (sc_yaxis fig) = Some [0%Z; 1%Z]
  /\ ticktext (sc_yaxis fig) = Some ["Failure"; "Success"]
  /\ Plotly.tick_label fig 0 = Some "Failure"
  /\ Plotly.tick_label fig 1 = Some "Success"
  /\ (forall v, Plotly.tick_label fig v <> None <-> v = 0%Z \/ v = 1%Z).
Proof.
  destruct range as [lo hi]. cbv zeta.
  unfold Plotly.tick_label, figure_of, update_scatter.
  destruct (String.eqb s "ALL"); cbn;
    (repeat split; try reflexivity; try discriminate;
     [ intros H; destruct (Z.eqb_spec v 0); [tauto|];
       destruct (Z.eqb_spec v 1); [tauto | contradiction]
     | intros [->| ->]; discriminate ]).
Qed.

(** ** The site selector *)

Lemma unique_from_spec (seen col : list string) :
  NoDup (Pandas.unique_from seen col)
  /\ forall x, In x (Pandas.unique_from seen col) <-> In x col /\ ~ In x seen.
Proof.
  revert seen. induction col as [|y t IH]; intros seen; simpl.
  - split; [constructor | tauto].
  - destruct (existsb (String.eqb y) seen) eqn:E.
    + assert (Hy : In y seen).
      { apply existsb_exists in E. destruct E as (z & Hz & Heq).
        apply String.eqb_eq in Heq. subst z. exact Hz. }
      destruct (IH seen) as [Hn Hi]. split; [exact Hn|].
      intros x. rewrite Hi. intuition congruence.
    + assert (Hy : ~ In y seen).
      { intros Hin. assert (existsb (String.eqb y) seen = true); [|congruence].
        apply existsb_exists. exists y. split; [exact Hin | apply String.eqb_refl]. }
      destruct (IH (y :: seen)) as [Hn Hi]. split.
      * constructor; [|exact Hn]. rewrite Hi. simpl. tauto.
      * intros x. simpl. rewrite Hi. simpl.
        destruct (string_dec y x) as [->|Hne]; intuition congruence.
Qed.

Lemma unique_spec (col : list string) :
  NoDup (Pandas.unique col)
  /\ forall x, In x (Pandas.unique col) <-> In x col.
Proof.
  unfold Pandas.unique. destruct (unique_from_spec [] col) as [Hn Hi].
  split; [exact Hn|]. intros x. rewrite Hi. simpl. tauto.
Qed.

(** The sites offered by the selector are distinct and are the sites of
    the rows of the frame. *)
Theorem launch_sites_are_the_sites_of_the_frame (csv : DataFrame) :
  NoDup (launch_sites (startup csv))
  /\ forall s, In s (launch_sites (startup csv))
               <-> exists r, In r csv /\ Launch_Site r = s.
Proof.
  simpl. destruct (unique_spec (map Launch_Site csv)) as [Hn Hi].
  split; [exact Hn|]. intros s. rewrite Hi, in_map_iff.
  split; intros (r & H1 & H2); exists r; tauto.
Qed.

(** The selector offers "All Sites" with the value "ALL" and every site of
    the frame under its own name, and nothing else. *)
Theorem dropdown_offers_all_and_each_site (csv : DataFrame) :
  let opts := dropdown_options (startup csv) in
  In (mkOption "All Sites" "ALL") opts
  /\ (forall r, In r csv -> In (mkOption (Launch_Site r) (Launch_Site r)) opts)
  /\ (forall o, In o opts ->
        o = mkOption "All Sites" "ALL"
        \/ (opt_label o = opt_value o
            /\ exists r, In r csv /\ Launch_Site r = opt_value o)).
Proof.
  cbv zeta. unfold dropdown_options.
  destruct (launch_sites_are_the_sites_of_the_frame csv) as [_ Hi].
  split; [left; reflexivity|]. split.
  - intros r Hr. right. apply in_map_iff. exists (Launch_Site r).
    split; [reflexivity|]. apply Hi. exists r. auto.
  - intros o [<-|Ho]; [left; reflexivity|]. right.
    apply in_map_iff in Ho. destruct Ho as (s & <- & Hs). simpl.
    split; [reflexivity|]. apply Hi. exact Hs.
Qed.

(** The values of the selector's options are distinct exactly when no row
    of the frame has the site "ALL"; such a site doubles the value "ALL". *)
Theorem dropdown_values_distinct_iff_no_site_named_all (csv : DataFrame) :
  NoDup (map opt_value (dropdown_options (startup csv)))
  <-> forall r, In r csv -> Launch_Site r <> "ALL".
Proof.
  destruct (launch_sites_are_the_sites_of_the_frame csv) as [Hn Hi].
  unfold dropdown_options. simpl map. rewrite map_map. simpl.
  rewrite map_id. split.
  - intros Hnd r Hr E. inversion Hnd as [|? ? Hnot _]; subst.
    apply Hnot. apply Hi. exists r. auto.
  - intros Hno. constructor; [|exact Hn].
    intros Hin. apply Hi in Hin. destruct Hin as (r & Hr & E).
    exact (Hno r Hr E).
Qed.

(** ** More on the pie chart *)

Lemma pie_total_site (g : Globals) (s : string) :
  s <> "ALL" ->
  pie_total (figure_of (update_pie_chart s) g) = count_rows (at_site s) (spacex_df g).
Proof.
  intros Hs. rewrite (pie_site_figure g s Hs). unfold pie_total, count_rows. simpl.
  rewrite map_map. rewrite (map_ext _ snd) by reflexivity.
  destruct (value_counts_spec (map class (filter (at_site s) (spacex_df g))))
    as (_ & Ht & _).
  rewrite Ht, length_map. reflexivity.
Qed.

(** A site the selector offers, other than the value "ALL", has a launch:
    its pie chart has a slice and a positive total. *)
Theorem offered_site_has_a_nonempty_pie (csv : DataFrame) (s : string) :
  In s (launch_sites (startup csv)) ->
  s <> "ALL" ->
  let fig := figure_of (update_pie_chart s) (startup csv) in
  0 < pie_total fig /\ pie_data fig <> [].
Proof.
  intros Hin Hs. cbv zeta.
  apply launch_sites_are_the_sites_of_the_frame in Hin.
  destruct Hin as (r & Hr & Hsite).
  assert (Hpos : 0 < pie_total (figure_of (update_pie_chart s) (startup csv))).
  { rewrite (pie_total_site _ s Hs). apply count_rows_positive.
    exists r. split; [exact Hr|]. unfold at_site. rewrite Hsite.
    apply String.eqb_refl. }
  split; [exact Hpos|].
  intros E. unfold pie_total in Hpos. rewrite E in Hpos. simpl in Hpos. lia.
Qed.

Lemma offered_site_has_a_nonempty_pie_witness :
  In "B" (launch_sites (startup example_df))
  /\ "B" <> "ALL"
  /\ 0 < pie_total (figure_of (update_pie_chart "B") (startup example_df)).
Proof.
  assert (Hin : In "B" (launch_sites (startup example_df)))
    by (right; left; reflexivity).
  assert (Hs : "B" <> "ALL") by discriminate.
  split; [exact Hin|]. split; [exact Hs|].
  apply (offered_site_has_a_nonempty_pie example_df "B" Hin Hs).
Defined.

(** The "Success" slice of a site's own pie chart and the site's slice in
    the chart for all sites have the same value, and are absent together. *)
Theorem site_success_slice_agrees_with_all_sites_pie
    (g : Globals) (s : string) (c : nat) :
  s <> "ALL" ->
  In (LStr "Success", c) (pie_data (figure_of (update_pie_chart s) g))
  <-> In (LStr s, c) (pie_data (figure_of (update_pie_chart "ALL") g)).
Proof.
  intros Hs. rewrite (pie_site_entry g s _ c Hs), pie_all_entry.
  assert (E : count_rows (fun r => at_site s r && Z.eqb (class r) 1) (spacex_df g)
              = count_rows (fun r => is_success r && at_site s r) (spacex_df g)).
  { unfold count_rows. f_equal. apply filter_ext. intros r.
    unfold is_success. apply andb_comm. }
  split.
  - intros (k & Hk & Hc). symmetry in Hk. apply replace_class_success in Hk.
    subst k. rewrite <- E. exact Hc.
  - intros Hc. exists 1%Z. split; [reflexivity|]. rewrite E. exact Hc.
Qed.

Lemma site_success_slice_agrees_with_all_sites_pie_witness :
  "A" <> "ALL"
  /\ (In (LStr "Success", 1) (pie_data (figure_of (update_pie_chart "A") (startup example_df)))
      <-> In (LStr "A", 1) (pie_data (figure_of (update_pie_chart "ALL") (startup example_df)))).
Proof.
  assert (Hs : "A" <> "ALL") by discriminate.
  split; [exact Hs|].
  apply (site_success_slice_agrees_with_all_sites_pie (startup example_df) "A" 1 Hs).
Defined.

(** In the pie chart for all sites the slices come in ascending order of
    site name. *)
Theorem pie_all_slices_sorted_by_site (g : Globals) :
  exists sites,
    pie_names (figure_of (update_pie_chart "ALL") g) = map LStr sites
    /\ StronglySorted str_lt sites.
Proof.
  eexists. split; [apply pie_all_names|].
  apply (groupby_size_spec (map Launch_Site (filter is_success (spacex_df g)))).
Qed.

Lemma sorted_map {A B : Type} (R : B -> B -> Prop) (f : A -> B) (l : list A) :
  Sorted (fun a b => R (f a) (f b)) l -> Sorted R (map f l).
Proof.
  induction 1 as [|a l _ IH Hhd]; simpl; constructor; [exact IH|].
  destruct Hhd; simpl; constructor. assumption.
Qed.

(** In a site's pie chart the slice with the larger value comes first. *)
Theorem pie_site_slices_by_descending_value (g : Globals) (s : string) :
  s <> "ALL" ->
  Sorted (fun a b => b <= a) (map snd (pie_data (figure_of (update_pie_chart s) g))).
Proof.
  intros Hs. rewrite (pie_site_figure g s Hs). simpl.
  rewrite map_map. rewrite (map_ext _ snd) by reflexivity.
  apply sorted_map. apply vc_sort_descending.
Qed.

Lemma pie_site_slices_by_descending_value_witness :
  "A" <> "ALL"
  /\ Sorted (fun a b => b <= a)
       (map snd (pie_data (figure_of (update_pie_chart "A") (startup example_df)))).
Proof.
  assert (Hs : "A" <> "ALL") by discriminate.
  split; [exact Hs|].
  apply (pie_site_slices_by_descending_value (startup example_df) "A" Hs).
Defined.

(** On a frame whose classes are 0 or 1 a site's pie chart has at most two
    slices. *)
Theorem pie_site_has_at_most_two_slices (g : Globals) (s : string) :
  s <> "ALL" ->
  binary_classes (spacex_df g) ->
  length (pie_data (figure_of (update_pie_chart s) g)) <= 2.
Proof.
  intros Hs Hbin.
  set (fig := figure_of (update_pie_chart s) g).
  assert (Hnd : NoDup (pie_names fig)).
  { unfold fig. rewrite (pie_site_figure g s Hs). unfold pie_names. simpl.
    rewrite map_map.
    rewrite (map_ext _ (fun e => replace_class (fst e))) by reflexivity.
    rewrite <- map_map. apply nodup_map_injective; [apply replace_class_injective|].
    apply (value_counts_spec (map class (filter (at_site s) (spacex_df g)))). }
  assert (Hincl : incl (pie_names fig) [LStr "Success"; LStr "Failure"]).
  { intros l Hl. unfold pie_names in Hl. apply in_map_iff in Hl.
    destruct Hl as ([l' c] & E & Hin). simpl in E. subst l'.
    apply (pie_site_entry g s l c Hs) in Hin.
    destruct Hin as (k & -> & -> & Hpos).
    apply rows_with_class in Hpos. destruct Hpos as (r & Hr & _ & Hk).
    unfold binary_classes in Hbin. rewrite Forall_forall in Hbin.
    destruct (Hbin r Hr) as [H0|H1].
    - right. left. rewrite <- Hk, H0. reflexivity.
    - left. rewrite <- Hk, H1. reflexivity. }
  pose proof (NoDup_incl_length Hnd Hincl) as Hlen.
  unfold pie_names in Hlen. rewrite length_map in Hlen. exact Hlen.
Qed.

Lemma pie_site_has_at_most_two_slices_witness :
  "A" <> "ALL"
  /\ binary_classes (spacex_df (startup example_df))
  /\ length (pie_data (figure_of (update_pie_chart "A") (startup example_df))) <= 2.
Proof.
  assert (Hs : "A" <> "ALL") by discriminate.
  assert (Hbin : binary_classes (spacex_df (startup example_df))).
  { unfold binary_classes. simpl.
    repeat (constructor; [(left; reflexivity) || (right; reflexivity)|]).
    constructor. }
  split; [exact Hs|]. split; [exact Hbin|].
  apply (pie_site_has_at_most_two_slices (startup example_df) "A" Hs Hbin).
Defined.

(** The pie chart for all sites has no slice exactly when no row of the
    frame has class 1. *)
Theorem pie_all_empty_iff_no_success (g : Globals) :
  pie_data (figure_of (update_pie_chart "ALL") g) = []
  <-> forall r, In r (spacex_df g) -> class r <> 1%Z.
Proof.
  split.
  - intros E r Hr Hc.
    assert (Hin : In (LStr (Launch_Site r),
                      count_rows (fun x => is_success x && at_site (Launch_Site r) x)
                                 (spacex_df g))
                     (pie_data (figure_of (update_pie_chart "ALL") g))).
    { apply pie_all_entry. split; [reflexivity|].
      apply count_rows_positive. exists r. split; [exact Hr|].
      unfold is_success, at_site. rewrite Hc, String.eqb_refl. reflexivity. }
    rewrite E in Hin. exact Hin.
  - intros Hno.
    destruct (pie_data (figure_of (update_pie_chart "ALL") g)) as [|[l c] t] eqn:E;
      [reflexivity|]. exfalso.
    assert (Hin : In (l, c) (pie_data (figure_of (update_pie_chart "ALL") g)))
      by (rewrite E; left; reflexivity).
    destruct l as [site|z].
    + apply pie_all_entry in Hin. destruct Hin as (Hc & Hpos).
      rewrite Hc in Hpos. apply count_rows_positive in Hpos. destruct Hpos as (r & Hr & Hp).
      apply andb_true_iff in Hp. destruct Hp as [H1 _].
      apply Z.eqb_eq in H1. exact (Hno r Hr H1).
    + rewrite pie_all_figure in Hin. simpl in Hin.
      apply in_map_iff in Hin. destruct Hin as (e & Heq & _). discriminate.
Qed.

(** ** More on the scatter chart *)

(** Narrowing the payload range only removes rows: the chart for a range
    inside another is the chart for the outer range restricted to the inner
    one, rows in the same order. *)
Theorem narrower_range_restricts_the_wider_chart
    (g : Globals) (s : string) (lo hi lo' hi' : Q) :
  (lo' <= lo)%Q -> (hi <= hi')%Q ->
  let inner := sc_data (figure_of (update_scatter s (lo, hi)) g) in
  let outer := sc_data (figure_of (update_scatter s (lo', hi')) g) in
  inner = filter (fun r => Qle_bool lo (Payload_Mass r)
                           && Qle_bool (Payload_Mass r) hi) outer
  /\ incl inner outer
  /\ length inner <= length outer.
Proof.
  intros Hlo Hhi. cbv zeta. rewrite !update_scatter_rows.
  assert (E : filter (in_view s lo hi) (spacex_df g)
              = filter (fun r => Qle_bool lo (Payload_Mass r)
                                 && Qle_bool (Payload_Mass r) hi)
                  (filter (in_view s lo' hi') (spacex_df g))).
  { rewrite filter_filter. apply filter_ext. intros r. unfold in_view.
    destruct (Qle_bool lo (Payload_Mass r)) eqn:E1;
      [|simpl; rewrite andb_false_r; reflexivity].
    destruct (Qle_bool (Payload_Mass r) hi) eqn:E2;
      [|simpl; rewrite andb_false_r; reflexivity].
    apply Qle_bool_iff in E1, E2.
    assert (H1 : Qle_bool lo' (Payload_Mass r) = true)
      by (apply Qle_bool_iff; apply Qle_trans with lo; assumption).
    assert (H2 : Qle_bool (Payload_Mass r) hi' = true)
      by (apply Qle_bool_iff; apply Qle_trans with hi; assumption).
    rewrite H1, H2. simpl. rewrite andb_true_r. reflexivity. }
  split; [exact E|]. split.
  - rewrite E. intros r Hr. apply filter_In in Hr. tauto.
  - rewrite E. apply filter_length_le.
Qed.

Lemma narrower_range_restricts_the_wider_chart_witness :
  (0 <= 550)%Q /\ (700 <= 1000)%Q
  /\ incl (sc_data (figure_of (update_scatter "ALL" (550, 700)%Q) (startup example_df)))
          (sc_data (figure_of (update_scatter "ALL" (0, 1000)%Q) (startup example_df))).
Proof.
  assert (H1 : (0 <= 550)%Q) by discriminate.
  assert (H2 : (700 <= 1000)%Q) by discriminate.
  split; [exact H1|]. split; [exact H2|].
  apply (narrower_range_restricts_the_wider_chart
           (startup example_df) "ALL" 550 700 0 1000 H1 H2).
Defined.

Lemma list_sum_map_add {A : Type} (f h : A -> nat) (l : list A) :
  list_sum (map (fun x => f x + h x) l) = list_sum (map f l) + list_sum (map h l).
Proof. induction l as [|x l IH]; simpl; [reflexivity|]. rewrite IH. lia. Qed.

Lemma one_site_matches (x : string) (sites : list string) :
  NoDup sites -> In x sites ->
  list_sum (map (fun s => if String.eqb x s then 1 else 0) sites) = 1.
Proof.
  induction 1 as [|y l Hnot Hnd IH]; simpl; intros Hin; [contradiction|].
  destruct (String.eqb_spec x y) as [->|Hne].
  - assert (E : list_sum (map (fun s => if String.eqb y s then 1 else 0) l) = 0).
    { clear IH Hin Hnd. induction l as [|z l IHl]; simpl; [reflexivity|].
      destruct (String.eqb_spec y z) as [->|_].
      - exfalso. apply Hnot. left. reflexivity.
      - apply IHl. intros H. apply Hnot. right. exact H. }
    rewrite E. reflexivity.
  - destruct Hin as [E|Hin]; [congruence|]. rewrite (IH Hin). reflexivity.
Qed.

(** Rows split by site: the rows of every site of a list that names each
    row's site once add up to all the rows. *)
Lemma rows_split_by_site (sites : list string) (D : DataFrame) :
  NoDup sites ->
  (forall r, In r D -> In (Launch_Site r) sites) ->
  list_sum (map (fun s => length (filter (at_site s) D)) sites) = length D.
Proof.
  intros Hnd. induction D as [|r D IH]; intros Hcov.
  - clear Hnd Hcov. induction sites as [|s l IHl]; simpl; [reflexivity|].
    exact IHl.
  - rewrite (map_ext _ (fun s => (if String.eqb (Launch_Site r) s then 1 else 0)
                                 + length (filter (at_site s) D))).
    + rewrite list_sum_map_add.
      rewrite (one_site_matches _ _ Hnd (Hcov r (or_introl eq_refl))).
      rewrite IH; [reflexivity|].
      intros r' Hr'. apply Hcov. right. exact Hr'.
    + intros s. simpl. unfold at_site at 1.
      destruct (String.eqb (Launch_Site r) s); reflexivity.
Qed.

(** On a frame with no site named "ALL", the charts of the sites the
    selector offers hold, between them, as many rows as the chart for all
    sites, for every payload range. *)
Theorem site_scatters_add_up_to_the_all_sites_scatter
    (csv : DataFrame) (lo hi : Q) :
  (forall r, In r csv -> Launch_Site r <> "ALL") ->
  list_sum (map (fun s => length (sc_data (figure_of (update_scatter s (lo, hi))
                                             (startup csv))))
                (launch_sites (startup csv)))
  = length (sc_data (figure_of (update_scatter "ALL" (lo, hi)) (startup csv))).
Proof.
  intros Hno.
  destruct (launch_sites_are_the_sites_of_the_frame csv) as [Hnd Hi].
  set (inside := fun r => Qle_bool lo (Payload_Mass r)
                          && Qle_bool (Payload_Mass r) hi).
  assert (Hall : sc_data (figure_of (update_scatter "ALL" (lo, hi)) (startup csv))
                 = filter inside csv).
  { rewrite update_scatter_rows. apply filter_ext. intros r.
    unfold in_view, inside. simpl. rewrite andb_true_r. reflexivity. }
  rewrite Hall.
  rewrite <- (rows_split_by_site (launch_sites (startup csv)) (filter inside csv) Hnd).
  - f_equal. apply map_ext_in. intros s Hs. f_equal.
    rewrite update_scatter_rows, filter_filter. apply filter_ext. intros r.
    unfold in_view, inside, at_site.
    assert (E : String.eqb s "ALL" = false).
    { apply String.eqb_neq. intros ->. apply Hi in Hs.
      destruct Hs as (r' & Hr' & E'). exact (Hno r' Hr' E'). }
    rewrite E. reflexivity.
  - intros r Hr. apply filter_In in Hr. apply Hi. exists r. tauto.
Qed.

Lemma site_scatters_add_up_to_the_all_sites_scatter_witness :
  (forall r, In r example_df -> Launch_Site r <> "ALL")
  /\ list_sum (map (fun s => length (sc_data (figure_of (update_scatter s (0, 1000)%Q)
                                             (startup example_df))))
                (launch_sites (startup example_df)))
     = 3.
Proof.
  assert (Hno : forall r, In r example_df -> Launch_Site r <> "ALL").
  { simpl. intros r [<-|[<-|[<-|[]]]]; discriminate. }
  split; [exact Hno|].
  rewrite (site_scatters_add_up_to_the_all_sites_scatter example_df 0 1000 Hno).
  reflexivity.
Defined.

(** On a frame with no site named "ALL", the totals of the pie charts of
    the sites the selector offers add up to the number of rows. *)
Theorem site_pies_add_up_to_the_frame (csv : DataFrame) :
  (forall r, In r csv -> Launch_Site r <> "ALL") ->
  list_sum (map (fun s => pie_total (figure_of (update_pie_chart s) (startup csv)))
                (launch_sites (startup csv)))
  = length csv.
Proof.
  intros Hno.
  destruct (launch_sites_are_the_sites_of_the_frame csv) as [Hnd Hi].
  rewrite <- (rows_split_by_site (launch_sites (startup csv)) csv Hnd).
  - f_equal. apply map_ext_in. intros s Hs.
    apply pie_total_site. intros ->. apply Hi in Hs.
    destruct Hs as (r & Hr & E). exact (Hno r Hr E).
  - intros r Hr. apply Hi. exists r. auto.
Qed.

Lemma site_pies_add_up_to_the_frame_witness :
  (forall r, In r example_df -> Launch_Site r <> "ALL")
  /\ list_sum (map (fun s => pie_total (figure_of (update_pie_chart s)
                                          (startup example_df)))
                (launch_sites (startup example_df)))
     = 3.
Proof.
  assert (Hno : forall r, In r example_df -> Launch_Site r <> "ALL").
  { simpl. intros r [<-|[<-|[<-|[]]]]; discriminate. }
  split; [exact Hno|].
  apply (site_pies_add_up_to_the_frame example_df Hno).
Defined.

(** ** The slider *)

Lemma py_int_monotone (a b : Q) : (a <= b)%Q -> (py_int a <= py_int b)%Z.
Proof.
  destruct a as [n1 d1], b as [n2 d2]. unfold Qle, py_int. simpl. intros H.
  rewrite <- (Z.quot_mul_cancel_r n1 (Zpos d1) (Zpos d2)) by lia.
  rewrite <- (Z.quot_mul_cancel_r n2 (Zpos d2) (Zpos d1)) by lia.
  rewrite (Z.mul_comm (Zpos d2) (Zpos d1)).
  apply Z.quot_le_mono; lia.
Qed.

Lemma frame_bounds_ordered (csv : DataFrame) (mn mx : Q) :
  min_payload (startup csv) = Some mn ->
  max_payload (startup csv) = Some mx ->
  (mn <= mx)%Q.
Proof.
  intros Hmin Hmax.
  apply min_payload_is_min in Hmin. apply max_payload_is_max in Hmax.
  destruct Hmin as [(r & Hr & _) Hlow]. destruct Hmax as [_ Hhigh].
  apply Qle_trans with (Payload_Mass r); [apply Hlow | apply Hhigh]; exact Hr.
Qed.

Lemma startup_bounds (csv : DataFrame) :
  csv <> [] ->
  exists mn mx, min_payload (startup csv) = Some mn
                /\ max_payload (startup csv) = Some mx.
Proof.
  destruct csv as [|r csv]; [contradiction|]. intros _.
  simpl. eexists. eexists. split; reflexivity.
Qed.


(** The slider's lower end is at most its upper end, and its default value
    is the pair of its ends. *)
Theorem slider_ends_are_ordered (csv : DataFrame) (sl : RangeSlider) :
  payload_slider (startup csv) = Some sl ->
  (slider_min sl <= slider_max sl)%Z
  /\ slider_value sl = (slider_min sl, slider_max sl).
Proof.
  unfold payload_slider.
  destruct (min_payload (startup csv)) as [mn|] eqn:Emin; [|discriminate].
  destruct (max_payload (startup csv)) as [mx|] eqn:Emax; [|discriminate].
  intros E. inversion E; subst sl; clear E. simpl.
  split; [|reflexivity].
  apply py_int_monotone. apply (frame_bounds_ordered csv); assumption.
Qed.

Lemma slider_ends_are_ordered_witness :
  exists sl, payload_slider (startup fractional_df) = Some sl
             /\ (slider_min sl <= slider_max sl)%Z.
Proof.
  eexists. split; [reflexivity|].
  apply (slider_ends_are_ordered fractional_df). reflexivity.
Defined.

Lemma below_truncation (q : Q) :
  (0 <= q)%Q \/ whole q -> (inject_Z (py_int q) <= q)%Q.
Proof.
  intros [H|(z & Hz)].
  - apply (py_int_truncates q). exact H.
  - rewrite (py_int_of_integer q z Hz). rewrite Hz. apply Qle_refl.
Qed.

Lemma above_truncation (q : Q) :
  (q <= 0)%Q \/ whole q -> (q <= inject_Z (py_int q))%Q.
Proof.
  intros [H|(z & Hz)].
  - apply (py_int_truncates q). exact H.
  - rewrite (py_int_of_integer q z Hz). rewrite Hz. apply Qle_refl.
Qed.

(** With the site filter "ALL" and the slider untouched the scatter chart
    holds every row, provided the least payload is non-negative or whole
    and the greatest is non-positive or whole. *)
Theorem default_view_shows_every_row (csv : DataFrame) (sl : RangeSlider)
    (mn mx : Q) :
  payload_slider (startup csv) = Some sl ->
  min_payload (startup csv) = Some mn ->
  max_payload (startup csv) = Some mx ->
  (0 <= mn)%Q \/ whole mn ->
  (mx <= 0)%Q \/ whole mx ->
  sc_data (figure_of (update_scatter "ALL" (default_range sl)) (startup csv)) = csv.
Proof.
  intros Hsl Hmin Hmax Hlow Hhigh.
  unfold payload_slider in Hsl. rewrite Hmin, Hmax in Hsl.
  inversion Hsl; subst sl; clear Hsl. unfold default_range. simpl fst. simpl snd.
  rewrite update_scatter_rows. simpl spacex_df.
  apply filter_all. intros r Hr. apply in_view_matches.
  apply min_payload_is_min in Hmin. apply max_payload_is_max in Hmax.
  split; [split|left; reflexivity].
  - apply Qle_trans with mn; [apply below_truncation; exact Hlow|].
    apply Hmin. exact Hr.
  - apply Qle_trans with mx; [apply Hmax; exact Hr|].
    apply above_truncation. exact Hhigh.
Qed.

Lemma default_view_shows_every_row_witness :
  exists sl, payload_slider (startup example_df) = Some sl
    /\ sc_data (figure_of (update_scatter "ALL" (default_range sl))
                  (startup example_df)) = example_df.
Proof.
  eexists. split; [reflexivity|].
  apply (default_view_shows_every_row example_df _ 500 800).
  - reflexivity.
  - reflexivity.
  - reflexivity.
  - left. discriminate.
  - right. exists 800%Z. reflexivity.
Defined.

(** When the greatest payload is positive and not whole, the slider's
    default upper end lies below it: some row has that payload, and with the
    slider untouched no such row is in the scatter chart, whatever the site
    filter. *)
Theorem default_view_hides_a_fractional_maximum (csv : DataFrame)
    (sl : RangeSlider) (mx : Q) :
  payload_slider (startup csv) = Some sl ->
  max_payload (startup csv) = Some mx ->
  (0 < mx)%Q ->
  ~ whole mx ->
  (exists r, In r csv /\ (Payload_Mass r == mx)%Q)
  /\ forall s r, (Payload_Mass r == mx)%Q ->
       ~ In r (sc_data (figure_of (update_scatter s (default_range sl))
                          (startup csv))).
Proof.
  intros Hsl Hmax Hpos Hfrac.
  unfold payload_slider in Hsl. rewrite Hmax in Hsl.
  destruct (min_payload (startup csv)) as [mn|]; [|discriminate].
  inversion Hsl; subst sl; clear Hsl. unfold default_range. simpl fst. simpl snd.
  split; [apply (max_payload_is_max csv mx Hmax)|].
  intros s r Hr Hin. rewrite update_scatter_rows in Hin.
  apply filter_In in Hin. destruct Hin as [_ Hv].
  apply in_view_matches in Hv. destruct Hv as [[_ Hhi] _].
  apply Hfrac. exists (py_int mx). apply Qle_antisym.
  - apply Qle_trans with (Payload_Mass r); [|exact Hhi].
    apply Qle_lteq. right. symmetry. exact Hr.
  - apply below_truncation. left. apply Qlt_le_weak. exact Hpos.
Qed.

Lemma default_view_hides_a_fractional_maximum_witness :
  exists sl, payload_slider (startup fractional_df) = Some sl
    /\ ~ In (mkLaunch "KSC LC-39A" (73933 # 20) 1 "F9 FT")
            (sc_data (figure_of (update_scatter "ALL" (default_range sl))
                        (startup fractional_df))).
Proof.
  eexists. split; [reflexivity|].
  refine (proj2 (default_view_hides_a_fractional_maximum
                   fractional_df _ (73933 # 20) eq_refl eq_refl _ _) _ _ _).
  - reflexivity.
  - intros (z & Hz). unfold Qeq in Hz. simpl in Hz. lia.
  - simpl. apply Qeq_refl.
Defined.

(** ** The slider's marks *)






(** ** The two charts together, and the bounds computed at start-up *)

(** A site's scatter chart never holds more rows than its pie chart
    counts, and holds as many when the payload range spans every payload. *)
Theorem site_scatter_and_pie_agree (g : Globals) (s : string) (lo hi : Q) :
  s <> "ALL" ->
  let shown := length (sc_data (figure_of (update_scatter s (lo, hi)) g)) in
  let counted := pie_total (figure_of (update_pie_chart s) g) in
  shown <= counted
  /\ ((forall r, In r (spacex_df g) -> in_range lo hi r) -> shown = counted).
Proof.
  intros Hs. cbv zeta. rewrite (pie_total_site g s Hs), update_scatter_rows.
  unfold count_rows.
  assert (Hsite : String.eqb s "ALL" = false) by (apply String.eqb_neq; exact Hs).
  assert (E : filter (in_view s lo hi) (spacex_df g)
              = filter (fun r => Qle_bool lo (Payload_Mass r)
                                 && Qle_bool (Payload_Mass r) hi)
                  (filter (at_site s) (spacex_df g))).
  { rewrite filter_filter. apply filter_ext. intros r.
    unfold in_view, at_site. rewrite Hsite. simpl. apply andb_comm. }
  rewrite E. split; [apply filter_length_le|].
  intros Hcover. f_equal. apply filter_all. intros r Hr.
  apply filter_In in Hr. destruct Hr as [Hr _].
  destruct (Hcover r Hr) as [H1 H2].
  apply andb_true_iff. split; apply Qle_bool_iff; assumption.
Qed.

Lemma site_scatter_and_pie_agree_witness :
  "A" <> "ALL"
  /\ length (sc_data (figure_of (update_scatter "A" (550, 1000)%Q)
                        (startup example_df)))
     <= pie_total (figure_of (update_pie_chart "A") (startup example_df)).
Proof.
  assert (Hs : "A" <> "ALL") by discriminate.
  split; [exact Hs|].
  apply (site_scatter_and_pie_agree (startup example_df) "A" 550 1000 Hs).
Defined.

(** The bounds computed at start-up are the least and the greatest payload
    of the frame, each the payload of some row; on an empty frame there is
    neither. *)
Theorem startup_bounds_are_the_extremes (csv : DataFrame) :
  (csv = [] -> min_payload (startup csv) = None
               /\ max_payload (startup csv) = None)
  /\ (csv <> [] ->
      exists mn mx, min_payload (startup csv) = Some mn
        /\ max_payload (startup csv) = Some mx
        /\ is_min_payload csv mn /\ is_max_payload csv mx
        /\ (mn <= mx)%Q).
Proof.
  split.
  - intros ->. split; reflexivity.
  - intros Hne. destruct (startup_bounds csv Hne) as (mn & mx & Hmin & Hmax).
    exists mn, mx. split; [exact Hmin|]. split; [exact Hmax|].
    split; [apply min_payload_is_min; exact Hmin|].
    split; [apply max_payload_is_max; exact Hmax|].
    apply (frame_bounds_ordered csv); assumption.
Qed.
